(** * hand_tracker.py: calibration, smoothing and the frame loop

    A shallow embedding of [src/hand_tracker.py] and the properties its
    specification states about it.

    Number models.  The program computes in Python floats (binary64).
    Two embeddings are used.

    - Exact: floats as rationals [Q], ints as [Z]; [int(x)] is
      truncation toward zero, the builtin [min]/[max] keep Python's
      argument order, and [/] fails on a zero divisor.  It carries the
      statements about ranges, order, saturation, data flow and the
      frame loop.  The square root behind [np.linalg.norm] and
      [math.sqrt] belongs to numpy and the C library: it is a
      parameter [sqrt].
    - Binary64 (module [Dbl]): floats as primitive doubles with their
      rounding, Python's mixed [int]/[float] arithmetic written out.
      It carries the statements that fix which integer is returned or
      which double is stored, where rounding decides.

    Left out: drawing, on-screen messages, the UDP socket itself (the
    packet handed to it is the loop's output) and the contents of the
    calibration file after start-up. *)

From Stdlib Require Import ZArith QArith Qabs Qround Qminmax Qpower Lia Lqa.
From Stdlib Require PrimFloat FloatOps SpecFloat FloatAxioms.
From stdpp Require Import base option list gmap strings.

Set Warnings "-inexact-float".

Local Open Scope string_scope.

(** ** Python primitives *)

Module Py.

(** [a < b] on floats. *)
Definition lt (a b : Q) : bool := negb (Qle_bool b a).

(** [min(a, b)]: the first argument unless the second is smaller. *)
Definition min (a b : Q) : Q := if lt b a then b else a.

(** [max(a, b)]: the first argument unless the second is larger. *)
Definition max (a b : Q) : Q := if lt a b then b else a.

(** [int(x)]: truncation toward zero. *)
Definition int (x : Q) : Z := (Qnum x ÷ Zpos (Qden x))%Z.

(** [a / b]: raises [ZeroDivisionError] on a zero divisor. *)
Definition div (a b : Q) : option Q :=
  if Qeq_bool b 0 then None else Some (a / b)%Q.

(** [l[i]] with Python's negative indices; [None] is [IndexError]. *)
Definition index {A} (l : list A) (i : Z) : option A :=
  if (i <? 0)%Z
  then if (i + Z.of_nat (length l) <? 0)%Z then None
       else l !! Z.to_nat (i + Z.of_nat (length l))
  else l !! Z.to_nat i.

End Py.

(** ** class HandCalibration *)

Record HandCalibration := mkHandCalibration {
  finger_ranges : gmap string (Q * Q)
}.

Definition default_ranges : gmap string (Q * Q) :=
  <["pinky" := (1 # 2, 11 # 5)%Q]>
  (<["ring" := (1 # 2, 11 # 5)%Q]>
  (<["middle" := (1 # 2, 11 # 5)%Q]>
  (<["index" := (1 # 2, 11 # 5)%Q]>
  (<["thumb_bend" := (3 # 10, 3 # 2)%Q]>
  (<["thumb_rotation" := (3 # 20, 17 # 20)%Q]> ∅))))).

(** [load_calibration]: [loaded] is the parsed content of the
    calibration file, [None] when the file is absent or unreadable.
    [dict.update] overwrites the keys present in the file. *)
Definition load_calibration (self : HandCalibration)
    (loaded : option (gmap string (Q * Q))) : HandCalibration * bool :=
  match loaded with
  | Some m => (mkHandCalibration (m ∪ finger_ranges self), true)
  | None => (self, false)
  end.

(** [__init__]: the defaults, then whatever the file holds. *)
Definition HandCalibration_init (loaded : option (gmap string (Q * Q)))
    : HandCalibration :=
  fst (load_calibration (mkHandCalibration default_ranges) loaded).

Definition update_min (self : HandCalibration) (finger_name : string)
    (value : Q) : HandCalibration :=
  match finger_ranges self !! finger_name with
  | Some (_, max_val) =>
      mkHandCalibration (<[finger_name := (value, max_val)]> (finger_ranges self))
  | None => self
  end.

Definition update_max (self : HandCalibration) (finger_name : string)
    (value : Q) : HandCalibration :=
  match finger_ranges self !! finger_name with
  | Some (min_val, _) =>
      mkHandCalibration (<[finger_name := (min_val, value)]> (finger_ranges self))
  | None => self
  end.

Definition normalize (self : HandCalibration) (finger_name : string)
    (raw_value : Q) : option Z :=
  match finger_ranges self !! finger_name with
  | None => Some 500%Z
  | Some (min_val, max_val) =>
      if Py.lt (Qabs (max_val - min_val)) (1 # 1000) then Some 500%Z
      else
        normalized ← Py.div (raw_value - min_val) (max_val - min_val);
        let normalized := Py.max 0 (Py.min 1 normalized) in
        Some (Py.int (normalized * 1000))
  end.

Definition reset_defaults (self : HandCalibration) : HandCalibration :=
  mkHandCalibration default_ranges.

(** The channel names, in packet order. *)
Definition finger_names : list string :=
  ["pinky"; "ring"; "middle"; "index"; "thumb_bend"; "thumb_rotation"].

(** ** class AngleSmoother *)

Record AngleSmoother := mkAngleSmoother {
  alpha : Q;
  smoothed : list Q;
  initialized : bool
}.

Definition AngleSmoother_init (alpha : Q) : AngleSmoother :=
  mkAngleSmoother alpha (replicate 6 (500 : Q)) false.

(** The [for i in range(len(angles))] loop of [smooth], from index [i]
    on: [smoothed[i]] is read and overwritten in place; reading past
    the end of [smoothed] is an [IndexError]. *)
Fixpoint smooth_loop (alpha : Q) (angles : list Z) (i : nat)
    (smoothed : list Q) : option (list Q) :=
  match angles with
  | [] => Some smoothed
  | a :: angles' =>
      s ← smoothed !! i;
      smooth_loop alpha angles' (S i)
        (<[i := (alpha * inject_Z a + (1 - alpha) * s)%Q]> smoothed)
  end.

(** [smooth] returns the new object state and the list it returns. *)
Definition smooth (self : AngleSmoother) (angles : list Z)
    : option (AngleSmoother * list Z) :=
  if negb (initialized self) then
    let smoothed' := inject_Z <$> angles in
    Some (mkAngleSmoother (alpha self) smoothed' true, Py.int <$> smoothed')
  else
    smoothed' ← smooth_loop (alpha self) angles 0 (smoothed self);
    Some (mkAngleSmoother (alpha self) smoothed' (initialized self),
          Py.int <$> smoothed').

Definition reset (self : AngleSmoother) : AngleSmoother :=
  mkAngleSmoother (alpha self) (smoothed self) false.

(** ** Feature extraction *)

Record Landmark := mkLandmark { lm_x : Q; lm_y : Q; lm_z : Q }.

(** A numpy array of three floats. *)
Definition array3 : Type := Q * Q * Q.

Definition arr_sub (a b : array3) : array3 :=
  let '(a0, a1, a2) := a in let '(b0, b1, b2) := b in
  (a0 - b0, a1 - b1, a2 - b2)%Q.

Definition arr_add (a b : array3) : array3 :=
  let '(a0, a1, a2) := a in let '(b0, b1, b2) := b in
  (a0 + b0, a1 + b1, a2 + b2)%Q.

Definition arr_div (a : array3) (k : Q) : array3 :=
  let '(a0, a1, a2) := a in (a0 / k, a1 / k, a2 / k)%Q.

Definition get_landmark_array (landmarks : list Landmark) (idx : Z)
    : option array3 :=
  lm ← Py.index landmarks idx;
  Some (lm_x lm, lm_y lm, lm_z lm).

(** A computable stand-in for the square root, used to run the
    extraction functions on concrete skeletons: the integer square
    root of the argument scaled by [10^12], over [10^6]. *)
Definition sqrt_micro (q : Q) : Q :=
  Z.sqrt (Qnum q * 10 ^ 12 / Zpos (Qden q)) # 1000000.

Section FeatureExtraction.

Variable sqrt : Q -> Q.

(** [np.linalg.norm] of a three-element array. *)
Definition linalg_norm (a : array3) : Q :=
  let '(a0, a1, a2) := a in sqrt (a0 * a0 + a1 * a1 + a2 * a2)%Q.

Definition calculate_finger_raw_value (landmarks : list Landmark)
    (mcp_idx pip_idx dip_idx tip_idx wrist_idx : Z) : option Q :=
  wrist ← get_landmark_array landmarks wrist_idx;
  mcp ← get_landmark_array landmarks mcp_idx;
  tip ← get_landmark_array landmarks tip_idx;
  let tip_to_wrist := linalg_norm (arr_sub tip wrist) in
  let mcp_to_wrist := linalg_norm (arr_sub mcp wrist) in
  if Py.lt mcp_to_wrist (1 # 1000) then Some 1%Q
  else Py.div tip_to_wrist mcp_to_wrist.

Definition calculate_thumb_bend_raw (landmarks : list Landmark)
    : option Q :=
  thumb_tip ← get_landmark_array landmarks 4;
  index_mcp ← get_landmark_array landmarks 5;
  middle_mcp ← get_landmark_array landmarks 9;
  wrist ← get_landmark_array landmarks 0;
  let palm_center := arr_div (arr_add (arr_add index_mcp middle_mcp) wrist) 3 in
  let thumb_to_palm := linalg_norm (arr_sub thumb_tip palm_center) in
  let hand_size := linalg_norm (arr_sub middle_mcp wrist) in
  if Py.lt hand_size (1 # 1000) then Some 1%Q
  else Py.div thumb_to_palm hand_size.

Definition calculate_thumb_rotation_raw (landmarks : list Landmark)
    : option Q :=
  thumb_tip ← get_landmark_array landmarks 4;
  index_mcp ← get_landmark_array landmarks 5;
  pinky_mcp ← get_landmark_array landmarks 17;
  let '(t0, t1, _) := thumb_tip in
  let '(i0, i1, _) := index_mcp in
  let '(p0, p1, _) := pinky_mcp in
  let thumb_to_index_2d := sqrt ((t0 - i0) ^ 2 + (t1 - i1) ^ 2)%Q in
  let palm_width := sqrt ((i0 - p0) ^ 2 + (i1 - p1) ^ 2)%Q in
  if Py.lt palm_width (1 # 1000) then Some (1 # 2)%Q
  else Py.div thumb_to_index_2d palm_width.

End FeatureExtraction.

(** ** The frame loop of [main] *)

Record Button := mkButton {
  btn_x : Z; btn_y : Z; btn_width : Z; btn_height : Z
}.

Definition contains (self : Button) (px py : Z) : bool :=
  (btn_x self <=? px)%Z && (px <=? btn_x self + btn_width self)%Z &&
  (btn_y self <=? py)%Z && (py <=? btn_y self + btn_height self)%Z.

Definition btn_open : Button := mkButton (640 - 130 - 10) 10 130 40.
Definition btn_closed : Button := mkButton (640 - 130 - 10) (10 + 40 + 10) 130 40.
Definition btn_save : Button := mkButton (640 - 130 - 10) (10 + (40 + 10) * 2) 130 40.
Definition btn_reset : Button := mkButton (640 - 130 - 10) (10 + (40 + 10) * 3) 130 40.
Definition btn_mirror : Button := mkButton (640 - 130 - 10) (10 + (40 + 10) * 4) 130 40.

(** The [data] dictionary handed to the socket. *)
Record Packet := mkPacket {
  detected : bool;
  angles : list Z;
  landmarks : list Landmark
}.

(** [data] as initialised at the top of every iteration. *)
Definition no_hand_packet : Packet :=
  mkPacket false [1000; 1000; 1000; 1000; 1000; 500]%Z [].

(** The locals of [main] that outlive an iteration. *)
Record MainState := mkMainState {
  calibration : HandCalibration;
  smoother : AngleSmoother;
  mirror_mode : bool;
  current_raw_values : gmap string Q
}.

(** What one iteration reads from the outside: the camera, the
    detector, the mouse globals and the keyboard. *)
Record FrameInput := mkFrameInput {
  cap_success : bool;
  multi_hand_landmarks : list (list Landmark);
  mouse_x : Z;
  mouse_y : Z;
  mouse_clicked : bool;
  waitKey : Z
}.

(** [main] before the loop: [loaded] is the calibration file. *)
Definition main_init (loaded : option (gmap string (Q * Q))) : MainState :=
  mkMainState (HandCalibration_init loaded) (AngleSmoother_init (7 # 20))
              true ∅.

(** [for fname in finger_names: if fname in current_raw_values:
    calibration.update_xxx(fname, current_raw_values[fname])]. *)
Definition capture (update : HandCalibration -> string -> Q -> HandCalibration)
    (cal : HandCalibration) (raw : gmap string Q) : HandCalibration :=
  foldl (fun c fname =>
           match raw !! fname with
           | Some v => update c fname v
           | None => c
           end) cal finger_names.

(** Python truthiness of the dictionary [current_raw_values]. *)
Definition nonempty_dict (raw : gmap string Q) : bool :=
  negb (bool_decide (raw = ∅)).

Section FrameLoop.

Variable sqrt : Q -> Q.

(** From the initialisation of [data] to [sock.sendto]: the packet of
    the frame and the state it leaves. *)
Definition process_frame (st : MainState) (hands : list (list Landmark))
    : option (MainState * Packet) :=
  match hands with
  | [] => Some (st, no_hand_packet)
  | lms :: _ =>
      raw_pinky ← calculate_finger_raw_value sqrt lms 17 18 19 20 0;
      raw_ring ← calculate_finger_raw_value sqrt lms 13 14 15 16 0;
      raw_middle ← calculate_finger_raw_value sqrt lms 9 10 11 12 0;
      raw_index ← calculate_finger_raw_value sqrt lms 5 6 7 8 0;
      raw_thumb_bend ← calculate_thumb_bend_raw sqrt lms;
      raw_thumb_rotation ← calculate_thumb_rotation_raw sqrt lms;
      let raw : gmap string Q :=
        <["pinky" := raw_pinky]> (<["ring" := raw_ring]>
        (<["middle" := raw_middle]> (<["index" := raw_index]>
        (<["thumb_bend" := raw_thumb_bend]>
        (<["thumb_rotation" := raw_thumb_rotation]> ∅))))) in
      let cal := calibration st in
      pinky_norm ← normalize cal "pinky" raw_pinky;
      ring_norm ← normalize cal "ring" raw_ring;
      middle_norm ← normalize cal "middle" raw_middle;
      index_norm ← normalize cal "index" raw_index;
      thumb_bend_norm ← normalize cal "thumb_bend" raw_thumb_bend;
      thumb_rotation_norm ← normalize cal "thumb_rotation" raw_thumb_rotation;
      let raw_angles := [pinky_norm; ring_norm; middle_norm; index_norm;
                         thumb_bend_norm; thumb_rotation_norm] in
      '(smoother', smoothed_angles) ← smooth (smoother st) raw_angles;
      Some (mkMainState cal smoother' (mirror_mode st) raw,
            mkPacket true smoothed_angles lms)
  end.

(** [if mouse_clicked: ...]: the button under the pointer. *)
Definition handle_click (st : MainState) (px py : Z) : MainState :=
  let raw := current_raw_values st in
  if contains btn_open px py then
    if nonempty_dict raw then
      mkMainState (capture update_max (calibration st) raw)
                  (reset (smoother st)) (mirror_mode st) raw
    else st
  else if contains btn_closed px py then
    if nonempty_dict raw then
      mkMainState (capture update_min (calibration st) raw)
                  (reset (smoother st)) (mirror_mode st) raw
    else st
  else if contains btn_save px py then st
  else if contains btn_reset px py then
    mkMainState (reset_defaults (calibration st)) (reset (smoother st))
                (mirror_mode st) raw
  else if contains btn_mirror px py then
    mkMainState (calibration st) (smoother st) (negb (mirror_mode st)) raw
  else st.

(** The keyboard branch; the boolean is [break]. *)
Definition handle_key (st : MainState) (key : Z) : MainState * bool :=
  let raw := current_raw_values st in
  if (key =? 113)%Z then (st, true)
  else if (key =? 109)%Z then
    (mkMainState (calibration st) (smoother st) (negb (mirror_mode st)) raw,
     false)
  else if (key =? 49)%Z && nonempty_dict raw then
    (mkMainState (capture update_max (calibration st) raw)
                 (reset (smoother st)) (mirror_mode st) raw, false)
  else if (key =? 50)%Z && nonempty_dict raw then
    (mkMainState (capture update_min (calibration st) raw)
                 (reset (smoother st)) (mirror_mode st) raw, false)
  else if (key =? 115)%Z then (st, false)
  else if (key =? 114)%Z then
    (mkMainState (reset_defaults (calibration st)) (reset (smoother st))
                 (mirror_mode st) raw, false)
  else (st, false).

(** One iteration of [while cap.isOpened()]: the state after it, the
    packet sent (none when [cap.read] failed) and whether the loop
    was left. *)
Definition loop_body (st : MainState) (inp : FrameInput)
    : option (MainState * option Packet * bool) :=
  if negb (cap_success inp) then Some (st, None, false)
  else
    '(st1, data) ← process_frame st (multi_hand_landmarks inp);
    let st2 := if mouse_clicked inp
               then handle_click st1 (mouse_x inp) (mouse_y inp) else st1 in
    let '(st3, brk) := handle_key st2 (Z.land (waitKey inp) 255) in
    Some (st3, Some data, brk).

(** The loop over the frames the camera delivers: the final state and
    the packets sent, in order. *)
Fixpoint run_loop (st : MainState) (inputs : list FrameInput)
    : option (MainState * list Packet) :=
  match inputs with
  | [] => Some (st, [])
  | inp :: inputs' =>
      '(st', data, brk) ← loop_body st inp;
      let sent := match data with Some d => [d] | None => [] end in
      if brk : bool then Some (st', sent)
      else '(st'', rest) ← run_loop st' inputs'; Some (st'', (sent ++ rest)%list)
  end.

End FrameLoop.

(** ** Reference definitions for the statements *)

(** Truncation toward zero, from the library's floor and ceiling. *)
Definition Qtrunc (x : Q) : Z :=
  if Qle_bool 0 x then Qfloor x else Qceiling x.

(** Rounding to the nearest integer, ties to the even one, as Python's
    [round] does. *)
Definition round_half_even (x : Q) : Z :=
  let f := Qfloor x in
  let d := (x - inject_Z f)%Q in
  if Py.lt d (1 # 2) then f
  else if Py.lt (1 # 2) d then (f + 1)%Z
  else if Z.even f then f else (f + 1)%Z.

(** [t] clamped to [[0, 1]]. *)
Definition clamp01 (t : Q) : Q := Qmax 0 (Qmin 1 t).

(** The six channel names are exactly the keys of the store. *)
Definition six_channel_store (self : HandCalibration) : Prop :=
  forall name : string,
    is_Some (finger_ranges self !! name) <-> name ∈ finger_names.

(** A packet value: six integers in [[0, 1000]]. *)
Definition angle_ok (k : Z) : Prop := (0 <= k <= 1000)%Z.

Definition angles_ok (l : list Z) : Prop :=
  length l = 6%nat /\ Forall angle_ok l.

(** One exponential-moving-average step, as the specification writes
    it: [alpha * input + (1 - alpha) * state]. *)
Definition blend (alpha : Q) (input : Z) (state : Q) : Q :=
  (alpha * inject_Z input + (1 - alpha) * state)%Q.




(** The running values are within the packet range. *)
Definition state_ok (x : Q) : Prop := (0 <= x <= 1000)%Q.

(** The smoother of [main] between two frames: a blend factor in
    [[0, 1]] and six running values in [[0, 1000]]. *)
Definition smoother_ok (self : AngleSmoother) : Prop :=
  (0 <= alpha self <= 1)%Q /\
  length (smoothed self) = 6%nat /\
  Forall state_ok (smoothed self).

#[global] Instance Landmark_inhabited : Inhabited Landmark :=
  populate (mkLandmark 0 0 0).

(** The detector delivers 21 keypoints for the hand it reports. *)
Definition skeleton_ok (inp : FrameInput) : Prop :=
  forall lms : list Landmark,
    head (multi_hand_landmarks inp) = Some lms -> length lms = 21%nat.

Definition no_hand (inp : FrameInput) : Prop :=
  multi_hand_landmarks inp = [].

(** No click on a button and no key that changes the calibration. *)
Definition no_reset_event (inp : FrameInput) : Prop :=
  mouse_clicked inp = false /\
  Z.land (waitKey inp) 255 <> 49%Z /\
  Z.land (waitKey inp) 255 <> 50%Z /\
  Z.land (waitKey inp) 255 <> 114%Z.

(** The frame was read and the loop was not left on it. *)
Definition frame_kept (inp : FrameInput) : Prop :=
  cap_success inp = true /\ Z.land (waitKey inp) 255 <> 113%Z.

(** Frames for running the loop: nothing detected and no key pressed;
    a detected hand; a click on the "Calibrate OPEN" button. *)
Definition idle_frame : FrameInput :=
  mkFrameInput true [] 0 0 false (-1).

Definition hand_frame (lms : list Landmark) : FrameInput :=
  mkFrameInput true [lms] 0 0 false (-1).

Definition click_open_frame (lms : list Landmark) : FrameInput :=
  mkFrameInput true [lms] 520 30 true (-1).

Section Distances.

Variable sqrt : Q -> Q.

(** Euclidean distance between two keypoints. *)
Definition distance (p q : Landmark) : Q :=
  let dx := (lm_x p - lm_x q)%Q in
  let dy := (lm_y p - lm_y q)%Q in
  let dz := (lm_z p - lm_z q)%Q in
  sqrt (dx * dx + dy * dy + dz * dz)%Q.

(** The same without the depth coordinate. *)
Definition distance2D (p q : Landmark) : Q :=
  sqrt ((lm_x p - lm_x q) ^ 2 + (lm_y p - lm_y q) ^ 2)%Q.

(** The mean of three keypoints. *)
Definition mean3 (a b c : Landmark) : Landmark :=
  mkLandmark ((lm_x a + lm_x b + lm_x c) / 3)
             ((lm_y a + lm_y b + lm_y c) / 3)
             ((lm_z a + lm_z b + lm_z c) / 3).

End Distances.

(** Two skeletons for running the extraction: an open hand, and the
    same hand with the middle joints of every finger moved. *)
Definition open_hand : list Landmark :=
  (fun k : nat => mkLandmark (Z.of_nat k # 40) (Z.of_nat (k * k) # 800) (1 # 50))
    <$> seq 0 21.

Definition bent_hand : list Landmark :=
  (fun k : nat =>
     if bool_decide (k ∈ [2; 3; 6; 7; 10; 11; 14; 15; 18; 19]%nat)
     then mkLandmark (1 # 3) (Z.of_nat k # 90) (1 # 7)
     else mkLandmark (Z.of_nat k # 40) (Z.of_nat (k * k) # 800) (1 # 50))
    <$> seq 0 21.

(** ** Persistence and the mouse callback *)

(** What the attempt to write the calibration file does: the dump goes
    through, or an exception leaves the file in the state [rest]
    ([None]: absent or unreadable). *)
Inductive WriteOutcome :=
  | Written
  | WriteFailed (rest : option (gmap string (Q * Q))).

(** [save_calibration]: the file after the call and the value
    returned; the object itself is not touched. *)
Definition save_calibration (self : HandCalibration) (outcome : WriteOutcome)
    : option (gmap string (Q * Q)) * bool :=
  match outcome with
  | Written => (Some (finger_ranges self), true)
  | WriteFailed rest => (rest, false)
  end.

(** The globals [mouse_x], [mouse_y] and [mouse_clicked]. *)
Record MouseGlobals := mkMouseGlobals {
  g_mouse_x : Z;
  g_mouse_y : Z;
  g_mouse_clicked : bool
}.

(** [cv2.EVENT_LBUTTONDOWN]. *)
Definition EVENT_LBUTTONDOWN : Z := 1.

Definition mouse_callback (g : MouseGlobals) (event x y : Z) : MouseGlobals :=
  mkMouseGlobals x y
    (if (event =? EVENT_LBUTTONDOWN)%Z then true else g_mouse_clicked g).

(** The callbacks delivered between two iterations of the loop, each
    an event with the pointer position. *)
Definition mouse_callbacks (g : MouseGlobals) (events : list (Z * Z * Z))
    : MouseGlobals :=
  foldl (fun g e => let '(event, x, y) := e in mouse_callback g event x y)
        g events.

(** Every channel has a reading. *)
Definition all_channels_read (raw : gmap string Q) : Prop :=
  forall name : string, name ∈ finger_names -> is_Some (raw !! name).

(** A keypoint moved by [(dx, dy, dz)]. *)
Definition shift (dx dy dz : Q) (p : Landmark) : Landmark :=
  mkLandmark (lm_x p + dx) (lm_y p + dy) (lm_z p + dz).

(** The image-plane coordinates of a keypoint. *)
Definition xy (p : Landmark) : Q * Q := (lm_x p, lm_y p).

(** [i] is a valid index, negative ones included, of a list of length
    [n]. *)
Definition valid_index (n : nat) (i : Z) : Prop :=
  (- Z.of_nat n <= i < Z.of_nat n)%Z.

(** [buttons] of [main]. *)
Definition buttons : list Button :=
  [btn_open; btn_closed; btn_save; btn_reset; btn_mirror].

(** ** The calibration store and the smoother over binary64 *)

Module Dbl.

Import PrimFloat.
Local Open Scope float_scope.

(** A Python number: an [int] or a [float]. *)
Inductive num :=
  | Int (z : Z)
  | Flt (x : float).

(** The conversion of an [int] to a [float], rounded to nearest. *)
Definition of_Z (z : Z) : float :=
  FloatOps.SF2Prim
    (SpecFloat.binary_normalize FloatOps.prec FloatOps.emax z 0 false).

(** The operand conversion of mixed arithmetic: [OverflowError] for an
    [int] beyond the range of [float]. *)
Definition as_float (n : num) : option float :=
  match n with
  | Flt x => Some x
  | Int z => if is_infinity (of_Z z) then None else Some (of_Z z)
  end.

(** [a < b]; an [int] operand is compared through its conversion,
    which is exact for the integers the source compares with. *)
Definition lt (a b : num) : bool :=
  match a, b with
  | Int x, Int y => (x <? y)%Z
  | Int x, Flt y => of_Z x <? y
  | Flt x, Int y => x <? of_Z y
  | Flt x, Flt y => x <? y
  end.

Definition min (a b : num) : num := if lt b a then b else a.

Definition max (a b : num) : num := if lt a b then b else a.

(** [a * b]: an [int] when both are, a [float] otherwise. *)
Definition mul (a b : num) : option num :=
  match a, b with
  | Int x, Int y => Some (Int (x * y))
  | _, _ => x ← as_float a; y ← as_float b; Some (Flt (x * y))
  end.

(** [int(x)] on a [float]: truncation toward zero; [ValueError] on a
    NaN and [OverflowError] on an infinity. *)
Definition trunc (x : float) : option Z :=
  match FloatOps.Prim2SF x with
  | SpecFloat.S754_zero _ => Some 0%Z
  | SpecFloat.S754_finite s m e =>
      let v := match e with
               | Z0 => Zpos m
               | Zpos p => Z.shiftl (Zpos m) (Zpos p)
               | Zneg p => Z.shiftr (Zpos m) (Zpos p)
               end in
      Some (if s then (- v)%Z else v)
  | _ => None
  end.

Definition int (n : num) : option Z :=
  match n with
  | Int z => Some z
  | Flt x => trunc x
  end.

(** [a / b] on floats: [ZeroDivisionError] on a zero divisor. *)
Definition div (a b : float) : option float :=
  if b =? 0 then None else Some (a / b).

Record HandCalibration := mkHandCalibration {
  finger_ranges : gmap string (float * float)
}.

Definition default_ranges : gmap string (float * float) :=
  <["pinky" := (0.5, 2.2)]>
  (<["ring" := (0.5, 2.2)]>
  (<["middle" := (0.5, 2.2)]>
  (<["index" := (0.5, 2.2)]>
  (<["thumb_bend" := (0.3, 1.5)]>
  (<["thumb_rotation" := (0.15, 0.85)]> ∅))))).

(** What [json.load] finds, with ranges that are pairs of floats: no
    readable file; an object; an array of [[name, range]] items, which
    [dict.update] also accepts, [complete] unless an item that
    [dict.update] rejects follows them. *)
Inductive calibration_file :=
  | NoFile
  | JsonObject (m : gmap string (float * float))
  | JsonPairs (items : list (string * (float * float))) (complete : bool).

(** [load_calibration]: [dict.update] writes the items in order, so
    the ones before a rejected item stay written although the call
    returns [False]. *)
Definition load_calibration (self : HandCalibration)
    (loaded : calibration_file) : HandCalibration * bool :=
  match loaded with
  | NoFile => (self, false)
  | JsonObject m => (mkHandCalibration (m ∪ finger_ranges self), true)
  | JsonPairs items complete =>
      (mkHandCalibration
         (foldl (fun r item => <[item.1 := item.2]> r)
                (finger_ranges self) items),
       complete)
  end.

Definition HandCalibration_init (loaded : calibration_file)
    : HandCalibration :=
  (load_calibration (mkHandCalibration default_ranges) loaded).1.

Definition update_min (self : HandCalibration) (finger_name : string)
    (value : float) : HandCalibration :=
  match finger_ranges self !! finger_name with
  | Some (_, max_val) =>
      mkHandCalibration (<[finger_name := (value, max_val)]> (finger_ranges self))
  | None => self
  end.

Definition update_max (self : HandCalibration) (finger_name : string)
    (value : float) : HandCalibration :=
  match finger_ranges self !! finger_name with
  | Some (min_val, _) =>
      mkHandCalibration (<[finger_name := (min_val, value)]> (finger_ranges self))
  | None => self
  end.

Definition normalize (self : HandCalibration) (finger_name : string)
    (raw_value : float) : option Z :=
  match finger_ranges self !! finger_name with
  | None => Some 500%Z
  | Some (min_val, max_val) =>
      if abs (max_val - min_val) <? 0.001 then Some 500%Z
      else
        normalized ← div (raw_value - min_val) (max_val - min_val);
        let normalized := max (Int 0) (min (Int 1) (Flt normalized)) in
        mul normalized (Int 1000) ≫= int
  end.

Record AngleSmoother := mkAngleSmoother {
  alpha : float;
  smoothed : list num;
  initialized : bool
}.

Definition AngleSmoother_init (alpha : float) : AngleSmoother :=
  mkAngleSmoother alpha (replicate 6 (Int 500)) false.

(** [self.alpha * angles[i] + (1 - self.alpha) * self.smoothed[i]]. *)
Definition blend (alpha : float) (a : Z) (s : num) : option float :=
  fa ← as_float (Int a);
  fs ← as_float s;
  Some (alpha * fa + (1 - alpha) * fs).

Fixpoint smooth_loop (alpha : float) (angles : list Z) (i : nat)
    (smoothed : list num) : option (list num) :=
  match angles with
  | [] => Some smoothed
  | a :: angles' =>
      s ← smoothed !! i;
      x ← blend alpha a s;
      smooth_loop alpha angles' (S i) (<[i := Flt x]> smoothed)
  end.

Definition smooth (self : AngleSmoother) (angles : list Z)
    : option (AngleSmoother * list Z) :=
  if negb (initialized self) then
    let smoothed' := Int <$> angles in
    out ← mapM int smoothed';
    Some (mkAngleSmoother (alpha self) smoothed' true, out)
  else
    smoothed' ← smooth_loop (alpha self) angles 0 (smoothed self);
    out ← mapM int smoothed';
    Some (mkAngleSmoother (alpha self) smoothed' (initialized self), out).

Definition reset (self : AngleSmoother) : AngleSmoother :=
  mkAngleSmoother (alpha self) (smoothed self) false.

(** The rational number a finite float stands for. *)
Definition exact (x : float) : option Q :=
  match FloatOps.Prim2SF x with
  | SpecFloat.S754_zero _ => Some 0%Q
  | SpecFloat.S754_finite s m e =>
      Some ((if s then - inject_Z (Zpos m) else inject_Z (Zpos m)) * 2 ^ e)%Q
  | _ => None
  end.

End Dbl.

(** ** Python primitives: basic facts *)

Lemma lt_true (a b : Q) : Py.lt a b = true <-> (a < b)%Q.
Proof.
  unfold Py.lt. rewrite negb_true_iff.
  destruct (Qle_bool b a) eqn:E.
  - apply Qle_bool_iff in E. split; [discriminate | intros H; exfalso; lra].
  - split; [intros _ | reflexivity].
    apply Qnot_le_lt. intros H. apply Qle_bool_iff in H. congruence.
Qed.

Lemma lt_false (a b : Q) : Py.lt a b = false <-> (b <= a)%Q.
Proof.
  destruct (Py.lt a b) eqn:E.
  - apply lt_true in E. split; [discriminate | intros H; exfalso; lra].
  - split; [intros _ | reflexivity].
    apply Qnot_lt_le. intros H. apply lt_true in H. congruence.
Qed.

Lemma int_nonneg (x : Q) : (0 <= x)%Q -> Py.int x = Qfloor x.
Proof.
  destruct x as [n d]. unfold Py.int, Qfloor, Qle. simpl. intros H.
  apply Z.quot_div_nonneg; lia.
Qed.

Lemma int_neg (x : Q) : (x < 0)%Q -> Py.int x = Qceiling x.
Proof.
  destruct x as [n d]. unfold Py.int, Qceiling, Qfloor, Qlt, Qopp. simpl.
  intros H.
  rewrite <- (Z.opp_involutive n) at 1.
  rewrite Z.quot_opp_l by lia.
  f_equal. apply Z.quot_div_nonneg; lia.
Qed.

Lemma int_trunc (x : Q) : Py.int x = Qtrunc x.
Proof.
  unfold Qtrunc. destruct (Qle_bool 0 x) eqn:E.
  - apply int_nonneg. now apply Qle_bool_iff.
  - apply int_neg. apply Qnot_le_lt. intros H.
    apply Qle_bool_iff in H. congruence.
Qed.

Lemma int_inject_Z (z : Z) : Py.int (inject_Z z) = z.
Proof. unfold Py.int. simpl. apply Z.quot_1_r. Qed.

Lemma floor_bounds (x : Q) (lo hi : Z) :
  (inject_Z lo <= x <= inject_Z hi)%Q -> (lo <= Qfloor x <= hi)%Z.
Proof.
  intros [H1 H2]. split.
  - rewrite <- (Qfloor_Z lo). now apply Qfloor_resp_le.
  - rewrite <- (Qfloor_Z hi). now apply Qfloor_resp_le.
Qed.

Lemma int_bounds (x : Q) (lo hi : Z) :
  (0 <= lo)%Z -> (inject_Z lo <= x)%Q -> (x <= inject_Z hi)%Q ->
  (lo <= Py.int x <= hi)%Z.
Proof.
  intros Hlo H1 H2.
  assert (0 <= x)%Q.
  { apply Qle_trans with (inject_Z lo); [|exact H1].
    change 0%Q with (inject_Z 0). now rewrite <- Zle_Qle. }
  rewrite int_nonneg by assumption.
  apply floor_bounds. now split.
Qed.

Lemma div_Some (a b : Q) : ~ (b == 0)%Q -> Py.div a b = Some (a / b)%Q.
Proof.
  intros H. unfold Py.div. destruct (Qeq_bool b 0) eqn:E; [|reflexivity].
  apply Qeq_bool_iff in E. contradiction.
Qed.

Lemma clamp_eq (t : Q) : (Py.max 0 (Py.min 1 t) == clamp01 t)%Q.
Proof.
  unfold Py.max, Py.min, clamp01.
  destruct (Py.lt t 1) eqn:E1.
  - apply lt_true in E1. rewrite (Q.min_r 1 t) by lra.
    destruct (Py.lt 0 t) eqn:E2.
    + apply lt_true in E2. rewrite Q.max_r by lra. reflexivity.
    + apply lt_false in E2. rewrite Q.max_l by lra. reflexivity.
  - apply lt_false in E1. rewrite (Q.min_l 1 t) by lra.
    assert (Py.lt 0 1 = true) as -> by reflexivity.
    rewrite Q.max_r by lra. reflexivity.
Qed.

Lemma clamp01_bounds (t : Q) : (0 <= clamp01 t <= 1)%Q.
Proof.
  unfold clamp01. split.
  - apply Q.le_max_l.
  - apply Q.max_lub; [lra | apply Q.le_min_l].
Qed.

Lemma clamp01_low (t : Q) : (t <= 0)%Q -> (clamp01 t == 0)%Q.
Proof.
  intros H. unfold clamp01.
  rewrite (Q.min_r 1 t) by lra. now rewrite Q.max_l.
Qed.

Lemma clamp01_high (t : Q) : (1 <= t)%Q -> (clamp01 t == 1)%Q.
Proof.
  intros H. unfold clamp01.
  rewrite (Q.min_l 1 t) by lra. rewrite Q.max_r by lra. reflexivity.
Qed.

(** ** HandCalibration *)

Lemma wide_range_nonzero (mn mx : Q) :
  (1 # 1000 <= Qabs (mx - mn))%Q -> ~ (mx - mn == 0)%Q.
Proof.
  intros H E. rewrite E in H. vm_compute in H. now apply H.
Qed.

(** On a range at least [0.001] wide, [normalize] is the floor of the
    clamped ratio times 1000. *)
Lemma normalize_wide (self : HandCalibration) (name : string) (mn mx r : Q) :
  finger_ranges self !! name = Some (mn, mx) ->
  (1 # 1000 <= Qabs (mx - mn))%Q ->
  normalize self name r =
    Some (Qfloor (clamp01 ((r - mn) / (mx - mn)) * 1000)).
Proof.
  intros Hl Hw. unfold normalize. rewrite Hl.
  assert (Py.lt (Qabs (mx - mn)) (1 # 1000) = false) as ->
    by now apply lt_false.
  rewrite div_Some by now apply wide_range_nonzero.
  simpl. f_equal.
  pose proof (clamp_eq ((r - mn) / (mx - mn))) as Hc.
  pose proof (clamp01_bounds ((r - mn) / (mx - mn))) as Hb.
  rewrite int_nonneg by (rewrite Hc; lra).
  now rewrite Hc.
Qed.

Lemma six_channel_default : six_channel_store (mkHandCalibration default_ranges).
Proof.
  intros name. unfold default_ranges, finger_names. simpl.
  rewrite !lookup_insert_is_Some', lookup_empty.
  rewrite !elem_of_cons, elem_of_nil.
  rewrite is_Some_alt.
  split; intros [?|[?|[?|[?|[?|[?|[]]]]]]]; subst; tauto.
Qed.

Lemma six_channel_update_min (self : HandCalibration) (name : string) (v : Q) :
  six_channel_store self -> six_channel_store (update_min self name v).
Proof.
  intros H n. unfold update_min.
  destruct (finger_ranges self !! name) as [[mn mx]|] eqn:E; [|apply H].
  simpl. rewrite lookup_insert_is_Some', <- (H n).
  split; [intros [<-|?]; [rewrite E; eauto | assumption] | auto].
Qed.

Lemma six_channel_update_max (self : HandCalibration) (name : string) (v : Q) :
  six_channel_store self -> six_channel_store (update_max self name v).
Proof.
  intros H n. unfold update_max.
  destruct (finger_ranges self !! name) as [[mn mx]|] eqn:E; [|apply H].
  simpl. rewrite lookup_insert_is_Some', <- (H n).
  split; [intros [<-|?]; [rewrite E; eauto | assumption] | auto].
Qed.

Lemma six_channel_reset (self : HandCalibration) :
  six_channel_store (reset_defaults self).
Proof. apply six_channel_default. Qed.

Lemma six_channel_capture
    (update : HandCalibration -> string -> Q -> HandCalibration)
    (raw : gmap string Q) (self : HandCalibration) :
  (forall (c : HandCalibration) (name : string) (v : Q),
     six_channel_store c -> six_channel_store (update c name v)) ->
  six_channel_store self -> six_channel_store (capture update self raw).
Proof.
  intros Hupd. unfold capture. revert self.
  induction finger_names as [|name names IH]; intros self H; [exact H|].
  simpl. apply IH. destruct (raw !! name); [now apply Hupd | exact H].
Qed.

(** A calibration file that names channels only leaves the store with
    its six keys. *)
Lemma six_channel_init (loaded : gmap string (Q * Q)) :
  (forall name : string, is_Some (loaded !! name) -> name ∈ finger_names) ->
  six_channel_store (HandCalibration_init (Some loaded)).
Proof.
  intros Hsub name. unfold HandCalibration_init. simpl.
  rewrite lookup_union_is_Some. split.
  - intros [H|H]; [now apply Hsub | now apply six_channel_default].
  - intros H. right. now apply six_channel_default.
Qed.

Lemma six_channel_init_no_file : six_channel_store (HandCalibration_init None).
Proof. apply six_channel_default. Qed.

(** The file overrides the defaults channel by channel. *)
Lemma load_calibration_merge (self : HandCalibration)
    (loaded : gmap string (Q * Q)) (name : string) :
  finger_ranges (load_calibration self (Some loaded)).1 !! name =
    match loaded !! name with
    | Some r => Some r
    | None => finger_ranges self !! name
    end.
Proof.
  simpl. destruct (loaded !! name) as [r|] eqn:E.
  - now apply lookup_union_Some_l.
  - rewrite lookup_union_r by exact E. reflexivity.
Qed.

(** [update_min] and [update_max] write one bound and keep the other. *)
Lemma update_min_lookup (self : HandCalibration) (name : string)
    (mn mx v : Q) :
  finger_ranges self !! name = Some (mn, mx) ->
  finger_ranges (update_min self name v) !! name = Some (v, mx).
Proof.
  intros H. unfold update_min. rewrite H. simpl. apply lookup_insert_eq.
Qed.

Lemma update_max_lookup (self : HandCalibration) (name : string)
    (mn mx v : Q) :
  finger_ranges self !! name = Some (mn, mx) ->
  finger_ranges (update_max self name v) !! name = Some (mn, v).
Proof.
  intros H. unfold update_max. rewrite H. simpl. apply lookup_insert_eq.
Qed.

(** C1.  For a channel of the store whose range is at least [0.001] wide,
    inverted or not, [normalize] returns an integer in [[0, 1000]] for
    every raw value; when [min < max] it returns [0] at [min] and
    [1000] at [max]. *)
Theorem normalize_in_range (self : HandCalibration) (name : string)
    (mn mx r : Q) :
  finger_ranges self !! name = Some (mn, mx) ->
  (1 # 1000 <= Qabs (mx - mn))%Q ->
  (exists k : Z, normalize self name r = Some k /\ (0 <= k <= 1000)%Z) /\
  ((mn < mx)%Q ->
     normalize self name mn = Some 0%Z /\
     normalize self name mx = Some 1000%Z).
Proof.
  intros Hl Hw. split.
  - eexists. split; [apply normalize_wide; eassumption|].
    pose proof (clamp01_bounds ((r - mn) / (mx - mn))) as Hb.
    apply floor_bounds.
    change (inject_Z 0) with 0%Q. change (inject_Z 1000) with 1000%Q. lra.
  - intros Hlt. pose proof (wide_range_nonzero _ _ Hw) as Hnz.
    rewrite !(normalize_wide self name mn mx) by assumption. split.
    + assert ((mn - mn) / (mx - mn) == 0)%Q as E by (field; exact Hnz).
      rewrite clamp01_low by (rewrite E; lra). reflexivity.
    + assert ((mx - mn) / (mx - mn) == 1)%Q as E by (field; exact Hnz).
      rewrite clamp01_high by (rewrite E; lra). reflexivity.
Qed.

Lemma normalize_in_range_witness :
  finger_ranges (mkHandCalibration default_ranges) !! "thumb_bend"
    = Some (3 # 10, 3 # 2)%Q /\
  (1 # 1000 <= Qabs ((3 # 2) - (3 # 10)))%Q /\
  ((exists k : Z,
      normalize (mkHandCalibration default_ranges) "thumb_bend" (9 # 10)
        = Some k /\ (0 <= k <= 1000)%Z) /\
   ((3 # 10 < 3 # 2)%Q ->
      normalize (mkHandCalibration default_ranges) "thumb_bend" (3 # 10)
        = Some 0%Z /\
      normalize (mkHandCalibration default_ranges) "thumb_bend" (3 # 2)
        = Some 1000%Z)).
Proof.
  split; [reflexivity|]. split; [vm_compute; discriminate|].
  apply (normalize_in_range (mkHandCalibration default_ranges) "thumb_bend"
           (3 # 10) (3 # 2) (9 # 10)).
  - reflexivity.
  - vm_compute; discriminate.
Defined.

(** With the default pinky range [[0.5, 2.2]] and the raw value [1.2]
    the clamped ratio times 1000 is [411.76...]: [normalize] returns
    [411], the nearest integer is [412]. *)
Lemma normalize_round_counterexample :
  ~ (forall (self : HandCalibration) (name : string) (mn mx r : Q),
       finger_ranges self !! name = Some (mn, mx) ->
       (1 # 1000 <= Qabs (mx - mn))%Q ->
       normalize self name r =
         Some (round_half_even (clamp01 ((r - mn) / (mx - mn)) * 1000))).
Proof.
  intros H.
  specialize (H (mkHandCalibration default_ranges) "pinky"
                (1 # 2)%Q (11 # 5)%Q (6 # 5)%Q).
  assert (normalize (mkHandCalibration default_ranges) "pinky" (6 # 5)
          = Some 411%Z) as E1 by (vm_compute; reflexivity).
  assert (round_half_even (clamp01 (((6 # 5) - (1 # 2)) / ((11 # 5) - (1 # 2))) * 1000)
          = 412%Z) as E2 by (vm_compute; reflexivity).
  rewrite E1, E2 in H.
  discriminate H; [reflexivity | vm_compute; discriminate].
Qed.

(** ** AngleSmoother *)

Lemma int_inject_list (v : list Z) : Py.int <$> (inject_Z <$> v) = v.
Proof.
  induction v as [|a v IH]; [reflexivity|].
  now rewrite !fmap_cons, int_inject_Z, IH.
Qed.

(** The in-place loop succeeds when the input fits in the state, and
    changes exactly the entries it visits. *)
Lemma smooth_loop_spec (al : Q) (angles : list Z) :
  forall (i : nat) (sm : list Q),
    (i + length angles <= length sm)%nat ->
    exists sm' : list Q,
      smooth_loop al angles i sm = Some sm' /\
      length sm' = length sm /\
      (forall j : nat, (j < i)%nat -> sm' !! j = sm !! j) /\
      (forall (j : nat) (a : Z) (s : Q),
         angles !! j = Some a -> sm !! (i + j)%nat = Some s ->
         sm' !! (i + j)%nat = Some (blend al a s)) /\
      (forall j : nat, (i + length angles <= j)%nat -> sm' !! j = sm !! j).
Proof.
  induction angles as [|a angles IH]; intros i sm Hlen; simpl in *.
  - exists sm. repeat split; auto. intros j a s Hj. discriminate.
  - destruct (lookup_lt_is_Some_2 sm i ltac:(lia)) as [s Hs].
    rewrite Hs. simpl.
    destruct (IH (S i) (<[i := (al * inject_Z a + (1 - al) * s)%Q]> sm))
      as (sm' & Hrun & Hl & Hbefore & Hat & Hafter).
    { rewrite length_insert. lia. }
    exists sm'. split; [exact Hrun|].
    rewrite length_insert in Hl. split; [exact Hl|]. split; [|split].
    + intros j Hj. rewrite Hbefore by lia.
      apply list_lookup_insert_ne. lia.
    + intros [|j] a' s' Ha' Hs'.
      * simpl in Ha'. injection Ha' as <-.
        rewrite Nat.add_0_r in *. rewrite Hbefore by lia.
        rewrite list_lookup_insert_eq by lia.
        rewrite Hs in Hs'. injection Hs' as <-. reflexivity.
      * simpl in Ha'. replace (i + S j)%nat with (S i + j)%nat in * by lia.
        apply Hat; [exact Ha'|].
        rewrite list_lookup_insert_ne by lia. exact Hs'.
    + intros j Hj. rewrite Hafter by lia.
      apply list_lookup_insert_ne. lia.
Qed.

(** An input longer than the state runs into [IndexError]. *)
Lemma smooth_loop_index_error (al : Q) (angles : list Z) :
  forall (i : nat) (sm : list Q),
    (i <= length sm < i + length angles)%nat ->
    smooth_loop al angles i sm = None.
Proof.
  induction angles as [|a angles IH]; intros i sm Hlen; simpl in *; [lia|].
  destruct (sm !! i) as [s|] eqn:Hs; [|reflexivity].
  apply lookup_lt_Some in Hs.
  simpl. apply IH. rewrite length_insert. lia.
Qed.

(** A call on an initialised smoother whose state has the length of
    the input: every channel is blended, the flag is kept. *)
Lemma smooth_initialized (self : AngleSmoother) (angles : list Z) :
  initialized self = true ->
  length angles = length (smoothed self) ->
  exists sm' : list Q,
    smooth self angles =
      Some (mkAngleSmoother (alpha self) sm' true, Py.int <$> sm') /\
    length sm' = length angles /\
    (forall (i : nat) (a : Z) (s : Q),
       angles !! i = Some a -> smoothed self !! i = Some s ->
       sm' !! i = Some (blend (alpha self) a s)).
Proof.
  intros Hi Hlen. unfold smooth. rewrite Hi. simpl.
  destruct (smooth_loop_spec (alpha self) angles 0 (smoothed self))
    as (sm' & Hrun & Hl & _ & Hat & _); [simpl; lia|].
  exists sm'. rewrite Hrun. simpl. split; [reflexivity|].
  split; [lia|]. intros i a s Ha Hs. now apply (Hat i a s).
Qed.

(** C4.  The first call of [smooth] on a new smoother, and the first call
    after [reset] on any smoother, returns its input unchanged, stores
    exactly the input as the running values and sets the flag. *)
Theorem smooth_first_call_identity (v : list Z) :
  (forall al : Q,
     exists self' : AngleSmoother,
       smooth (AngleSmoother_init al) v = Some (self', v) /\
       initialized self' = true /\
       smoothed self' = inject_Z <$> v /\
       alpha self' = al) /\
  (forall self : AngleSmoother,
     exists self' : AngleSmoother,
       smooth (reset self) v = Some (self', v) /\
       initialized self' = true /\
       smoothed self' = inject_Z <$> v /\
       alpha self' = alpha self).
Proof.
  split.
  - intros al. eexists. unfold smooth. simpl.
    rewrite int_inject_list. repeat split.
  - intros self. eexists. unfold smooth. simpl.
    rewrite int_inject_list. repeat split.
Qed.

(** With [alpha = 0.35], running values [0] and the input [5] on every
    channel the new running value is [1.75]: [smooth] returns [1], the
    nearest integer is [2]. *)
Lemma smooth_round_counterexample :
  ~ (forall (self self' : AngleSmoother) (v out : list Z),
       initialized self = true ->
       length v = length (smoothed self) ->
       smooth self v = Some (self', out) ->
       out = round_half_even <$> smoothed self').
Proof.
  intros H.
  assert (exists (self' : AngleSmoother) (out : list Z),
            smooth (mkAngleSmoother (7 # 20) (inject_Z <$> replicate 6 0%Z) true)
                   (replicate 6 5%Z) = Some (self', out) /\
            out = replicate 6 1%Z /\
            round_half_even <$> smoothed self' = replicate 6 2%Z)
    as (self' & out & E & Hout & Hround).
  { vm_compute. eexists. eexists. repeat split. }
  apply H in E; [|reflexivity ..].
  rewrite Hout, Hround in E. discriminate E.
Qed.

(** ** The moving average under a constant input *)

Section Ema.

Variables (al : Q) (v : Z) (s : Q).







End Ema.




(** ** Feature extraction *)

Lemma index_in_range {A} `{Inhabited A} (l : list A) (i : Z) :
  (0 <= i < Z.of_nat (length l))%Z ->
  Py.index l i = Some (l !!! Z.to_nat i).
Proof.
  intros Hi. unfold Py.index.
  destruct (i <? 0)%Z eqn:E; [apply Z.ltb_lt in E; lia|].
  apply list_lookup_lookup_total_lt. lia.
Qed.

Lemma get_landmark_array_in_range (lms : list Landmark) (idx : Z) :
  (0 <= idx < Z.of_nat (length lms))%Z ->
  get_landmark_array lms idx =
    Some (lm_x (lms !!! Z.to_nat idx), lm_y (lms !!! Z.to_nat idx),
          lm_z (lms !!! Z.to_nat idx)).
Proof.
  intros Hi. unfold get_landmark_array. now rewrite index_in_range.
Qed.

(** The guarded quotient the three extraction functions end with. *)
Lemma guarded_ratio (num den fallback : Q) :
  ((den < 1 # 1000)%Q ->
     (if Py.lt den (1 # 1000) then Some fallback else Py.div num den)
     = Some fallback) /\
  ((1 # 1000 <= den)%Q ->
     (if Py.lt den (1 # 1000) then Some fallback else Py.div num den)
     = Some (num / den)%Q).
Proof.
  split; intros Hd.
  - apply lt_true in Hd. now rewrite Hd.
  - assert (Py.lt den (1 # 1000) = false) as -> by now apply lt_false.
    apply div_Some. intros E. rewrite E in Hd. vm_compute in Hd. now apply Hd.
Qed.

Section Extraction.

Variable sqrt : Q -> Q.

Lemma finger_raw_value_21 (lms : list Landmark) (mcp pip dip tip : Z) :
  length lms = 21%nat -> (0 <= mcp < 21)%Z -> (0 <= tip < 21)%Z ->
  calculate_finger_raw_value sqrt lms mcp pip dip tip 0 =
    let d := distance sqrt (lms !!! Z.to_nat mcp) (lms !!! 0%nat) in
    if Py.lt d (1 # 1000) then Some 1%Q
    else Py.div (distance sqrt (lms !!! Z.to_nat tip) (lms !!! 0%nat)) d.
Proof.
  intros Hlen Hm Ht. unfold calculate_finger_raw_value.
  rewrite !get_landmark_array_in_range by (rewrite Hlen; lia).
  reflexivity.
Qed.

Lemma thumb_bend_raw_21 (lms : list Landmark) :
  length lms = 21%nat ->
  calculate_thumb_bend_raw sqrt lms =
    let d := distance sqrt (lms !!! 9%nat) (lms !!! 0%nat) in
    if Py.lt d (1 # 1000) then Some 1%Q
    else Py.div (distance sqrt (lms !!! 4%nat)
                   (mean3 (lms !!! 5%nat) (lms !!! 9%nat) (lms !!! 0%nat))) d.
Proof.
  intros Hlen. unfold calculate_thumb_bend_raw.
  rewrite !get_landmark_array_in_range by (rewrite Hlen; lia).
  reflexivity.
Qed.

Lemma thumb_rotation_raw_21 (lms : list Landmark) :
  length lms = 21%nat ->
  calculate_thumb_rotation_raw sqrt lms =
    let d := distance2D sqrt (lms !!! 5%nat) (lms !!! 17%nat) in
    if Py.lt d (1 # 1000) then Some (1 # 2)%Q
    else Py.div (distance2D sqrt (lms !!! 4%nat) (lms !!! 5%nat)) d.
Proof.
  intros Hlen. unfold calculate_thumb_rotation_raw.
  rewrite !get_landmark_array_in_range by (rewrite Hlen; lia).
  reflexivity.
Qed.

Lemma guarded_ratio_total (num den fallback : Q) :
  is_Some (if Py.lt den (1 # 1000) then Some fallback else Py.div num den).
Proof.
  destruct (Qlt_le_dec den (1 # 1000)) as [H|H].
  - rewrite (proj1 (guarded_ratio num den fallback) H). eauto.
  - rewrite (proj2 (guarded_ratio num den fallback) H). eauto.
Qed.

(** C7.  On a skeleton of 21 keypoints none of the three extraction
    functions fails.  The finger ratio is [1] when the MCP joint is
    closer than [0.001] to the wrist and [distance(TIP, WRIST) /
    distance(MCP, WRIST)] otherwise; the thumb bend is [1] when the
    middle MCP joint is closer than [0.001] to the wrist and the
    distance from the thumb tip to the mean of index MCP, middle MCP
    and wrist over that hand size otherwise; the thumb rotation is
    [0.5] when index MCP and pinky MCP are closer than [0.001] in the
    image plane and the planar distance from thumb tip to index MCP
    over that palm width otherwise. *)
Theorem extraction_degenerate_geometry (lms : list Landmark)
    (mcp pip dip tip : Z) :
  length lms = 21%nat -> (0 <= mcp < 21)%Z -> (0 <= tip < 21)%Z ->
  let kp := fun i : nat => lms !!! i in
  let finger := calculate_finger_raw_value sqrt lms mcp pip dip tip 0 in
  let bend := calculate_thumb_bend_raw sqrt lms in
  let rotation := calculate_thumb_rotation_raw sqrt lms in
  ((distance sqrt (kp (Z.to_nat mcp)) (kp 0%nat) < 1 # 1000)%Q ->
     finger = Some 1%Q) /\
  ((1 # 1000 <= distance sqrt (kp (Z.to_nat mcp)) (kp 0%nat))%Q ->
     finger = Some (distance sqrt (kp (Z.to_nat tip)) (kp 0%nat)
                    / distance sqrt (kp (Z.to_nat mcp)) (kp 0%nat))%Q) /\
  ((distance sqrt (kp 9%nat) (kp 0%nat) < 1 # 1000)%Q ->
     bend = Some 1%Q) /\
  ((1 # 1000 <= distance sqrt (kp 9%nat) (kp 0%nat))%Q ->
     bend = Some (distance sqrt (kp 4%nat)
                    (mean3 (kp 5%nat) (kp 9%nat) (kp 0%nat))
                  / distance sqrt (kp 9%nat) (kp 0%nat))%Q) /\
  ((distance2D sqrt (kp 5%nat) (kp 17%nat) < 1 # 1000)%Q ->
     rotation = Some (1 # 2)%Q) /\
  ((1 # 1000 <= distance2D sqrt (kp 5%nat) (kp 17%nat))%Q ->
     rotation = Some (distance2D sqrt (kp 4%nat) (kp 5%nat)
                      / distance2D sqrt (kp 5%nat) (kp 17%nat))%Q).
Proof.
  intros Hlen Hm Ht kp finger bend rotation.
  subst finger bend rotation.
  rewrite finger_raw_value_21, thumb_bend_raw_21, thumb_rotation_raw_21
    by assumption.
  cbv zeta. subst kp. cbv beta.
  repeat split; apply guarded_ratio.
Qed.

(** C10.  The finger ratio reads the wrist, MCP and TIP keypoints only: two
    skeletons that agree at these three indices give the same result,
    whatever the PIP and DIP arguments and the other keypoints are. *)
Theorem finger_value_ignores_pip_dip (lms1 lms2 : list Landmark)
    (mcp tip wrist pip1 dip1 pip2 dip2 : Z) :
  Py.index lms1 wrist = Py.index lms2 wrist ->
  Py.index lms1 mcp = Py.index lms2 mcp ->
  Py.index lms1 tip = Py.index lms2 tip ->
  calculate_finger_raw_value sqrt lms1 mcp pip1 dip1 tip wrist =
  calculate_finger_raw_value sqrt lms2 mcp pip2 dip2 tip wrist.
Proof.
  intros Hw Hm Ht. unfold calculate_finger_raw_value, get_landmark_array.
  now rewrite Hw, Hm, Ht.
Qed.

End Extraction.

Lemma extraction_degenerate_geometry_witness :
  calculate_finger_raw_value sqrt_micro open_hand 5 6 7 8 0 =
    Some (distance sqrt_micro (open_hand !!! 8%nat) (open_hand !!! 0%nat)
          / distance sqrt_micro (open_hand !!! 5%nat) (open_hand !!! 0%nat))%Q.
Proof.
  destruct (extraction_degenerate_geometry sqrt_micro open_hand 5 6 7 8)
    as (_ & H & _); [reflexivity | lia | lia |].
  apply H. vm_compute. discriminate.
Defined.

Lemma finger_value_ignores_pip_dip_witness :
  calculate_finger_raw_value sqrt_micro open_hand 5 6 7 8 0 =
  calculate_finger_raw_value sqrt_micro bent_hand 5 (-1) 40 8 0.
Proof.
  apply (finger_value_ignores_pip_dip sqrt_micro open_hand bent_hand
           5 8 0 6 7 (-1) 40); reflexivity.
Defined.

(** ** The frame loop *)

Lemma normalize_total (self : HandCalibration) (name : string) (r : Q) :
  exists k : Z, normalize self name r = Some k /\ angle_ok k.
Proof.
  destruct (finger_ranges self !! name) as [[mn mx]|] eqn:E.
  - destruct (Qlt_le_dec (Qabs (mx - mn)) (1 # 1000)) as [Hd|Hw].
    + exists 500%Z. split; [|unfold angle_ok; lia].
      unfold normalize. rewrite E. apply lt_true in Hd. now rewrite Hd.
    + eexists. split; [apply normalize_wide; eassumption|].
      apply floor_bounds.
      pose proof (clamp01_bounds ((r - mn) / (mx - mn))).
      change (inject_Z 0) with 0%Q. change (inject_Z 1000) with 1000%Q. lra.
  - exists 500%Z. split; [|unfold angle_ok; lia].
    unfold normalize. now rewrite E.
Qed.

Lemma blend_ok (al : Q) (a : Z) (s : Q) :
  (0 <= al <= 1)%Q -> angle_ok a -> state_ok s -> state_ok (blend al a s).
Proof.
  unfold angle_ok, state_ok, blend. intros Hal [Ha1 Ha2] Hs.
  assert (0 <= inject_Z a <= 1000)%Q as Ha.
  { change 0%Q with (inject_Z 0). change 1000%Q with (inject_Z 1000).
    rewrite <- !Zle_Qle. lia. }
  split; nra.
Qed.

Lemma int_state_ok (x : Q) : state_ok x -> angle_ok (Py.int x).
Proof.
  intros [H1 H2]. apply int_bounds; [lia | exact H1 | exact H2].
Qed.

Lemma inject_angle_ok (a : Z) : angle_ok a -> state_ok (inject_Z a).
Proof.
  intros [H1 H2]. unfold state_ok.
  change 0%Q with (inject_Z 0). change 1000%Q with (inject_Z 1000).
  rewrite <- !Zle_Qle. lia.
Qed.

(** [smooth] keeps the smoother well formed and returns six values in
    range. *)
Lemma smooth_ok (self : AngleSmoother) (v : list Z) :
  smoother_ok self -> angles_ok v ->
  exists (self' : AngleSmoother) (out : list Z),
    smooth self v = Some (self', out) /\ smoother_ok self' /\ angles_ok out.
Proof.
  intros (Hal & Hlen & Hst) (Hvlen & Hv).
  destruct (initialized self) eqn:Hi.
  - destruct (smooth_initialized self v Hi) as (sm' & Hrun & Hl & Hat);
      [lia|].
    assert (Forall state_ok sm') as Hsm'.
    { apply Forall_lookup. intros i x Hx.
      pose proof (lookup_lt_Some _ _ _ Hx) as Hlt.
      destruct (lookup_lt_is_Some_2 v i ltac:(lia)) as [a Ha].
      destruct (lookup_lt_is_Some_2 (smoothed self) i ltac:(lia)) as [s Hs].
      rewrite (Hat i a s Ha Hs) in Hx. injection Hx as <-.
      apply blend_ok; [exact Hal| |].
      - exact (proj1 (Forall_lookup _ _) Hv i a Ha).
      - exact (proj1 (Forall_lookup _ _) Hst i s Hs). }
    eexists. eexists. split; [exact Hrun|]. split.
    + repeat split; simpl; try apply Hal; [lia | exact Hsm'].
    + split; [rewrite length_fmap; lia|].
      apply Forall_fmap. eapply Forall_impl; [exact Hsm'|].
      intros x Hx. now apply int_state_ok.
  - unfold smooth. rewrite Hi. simpl. eexists. eexists.
    split; [reflexivity|]. rewrite int_inject_list. split.
    + repeat split; simpl; try apply Hal; [rewrite length_fmap; lia|].
      apply Forall_fmap. eapply Forall_impl; [exact Hv|].
      intros a Ha. now apply inject_angle_ok.
    + now split.
Qed.

Lemma reset_ok (self : AngleSmoother) : smoother_ok self -> smoother_ok (reset self).
Proof. intros H. exact H. Qed.

Lemma init_smoother_ok : smoother_ok (AngleSmoother_init (7 # 20)).
Proof.
  repeat split; simpl; try (vm_compute; discriminate).
  repeat constructor; vm_compute; discriminate.
Qed.

(** A click or a key leaves the smoother as it is or resets it. *)
Lemma handle_click_smoother (st : MainState) (px py : Z) :
  smoother (handle_click st px py) = smoother st \/
  smoother (handle_click st px py) = reset (smoother st).
Proof.
  unfold handle_click.
  repeat match goal with
         | |- context [if ?b then _ else _] => destruct b
         end; simpl; auto.
Qed.

Lemma handle_key_smoother (st : MainState) (key : Z) :
  smoother (handle_key st key).1 = smoother st \/
  smoother (handle_key st key).1 = reset (smoother st).
Proof.
  unfold handle_key.
  repeat match goal with
         | |- context [if ?b then _ else _] => destruct b
         end; simpl; auto.
Qed.

Lemma handle_key_quiet (st : MainState) (key : Z) :
  key <> 49%Z -> key <> 50%Z -> key <> 114%Z ->
  smoother (handle_key st key).1 = smoother st.
Proof.
  intros H1 H2 H3. unfold handle_key.
  apply Z.eqb_neq in H1, H2, H3. rewrite H1, H2, H3. simpl.
  repeat match goal with
         | |- context [if ?b then _ else _] => destruct b
         end; reflexivity.
Qed.

Section Loop.

Variable sqrt : Q -> Q.

Lemma finger_raw_total (lms : list Landmark) (mcp pip dip tip : Z) :
  length lms = 21%nat -> (0 <= mcp < 21)%Z -> (0 <= tip < 21)%Z ->
  is_Some (calculate_finger_raw_value sqrt lms mcp pip dip tip 0).
Proof.
  intros. rewrite finger_raw_value_21 by assumption.
  apply guarded_ratio_total.
Qed.

Lemma thumb_bend_total (lms : list Landmark) :
  length lms = 21%nat -> is_Some (calculate_thumb_bend_raw sqrt lms).
Proof.
  intros. rewrite thumb_bend_raw_21 by assumption. apply guarded_ratio_total.
Qed.

Lemma thumb_rotation_total (lms : list Landmark) :
  length lms = 21%nat -> is_Some (calculate_thumb_rotation_raw sqrt lms).
Proof.
  intros. rewrite thumb_rotation_raw_21 by assumption.
  apply guarded_ratio_total.
Qed.

Lemma process_frame_ok (st : MainState) (hands : list (list Landmark)) :
  smoother_ok (smoother st) ->
  (forall lms : list Landmark, head hands = Some lms -> length lms = 21%nat) ->
  exists (st' : MainState) (pkt : Packet),
    process_frame sqrt st hands = Some (st', pkt) /\
    smoother_ok (smoother st') /\ angles_ok (angles pkt).
Proof.
  intros Hok Hsk. destruct hands as [|lms hands].
  - exists st, no_hand_packet. split; [reflexivity|]. split; [exact Hok|].
    split; [reflexivity|]. repeat constructor; lia.
  - specialize (Hsk lms eq_refl). unfold process_frame.
    destruct (finger_raw_total lms 17 18 19 20 Hsk) as [r1 ->]; [lia..|].
    destruct (finger_raw_total lms 13 14 15 16 Hsk) as [r2 ->]; [lia..|].
    destruct (finger_raw_total lms 9 10 11 12 Hsk) as [r3 ->]; [lia..|].
    destruct (finger_raw_total lms 5 6 7 8 Hsk) as [r4 ->]; [lia..|].
    destruct (thumb_bend_total lms Hsk) as [r5 ->].
    destruct (thumb_rotation_total lms Hsk) as [r6 ->].
    cbn [mbind option_bind].
    destruct (normalize_total (calibration st) "pinky" r1) as (k1 & -> & ?).
    destruct (normalize_total (calibration st) "ring" r2) as (k2 & -> & ?).
    destruct (normalize_total (calibration st) "middle" r3) as (k3 & -> & ?).
    destruct (normalize_total (calibration st) "index" r4) as (k4 & -> & ?).
    destruct (normalize_total (calibration st) "thumb_bend" r5) as (k5 & -> & ?).
    destruct (normalize_total (calibration st) "thumb_rotation" r6)
      as (k6 & -> & ?).
    cbn [mbind option_bind].
    destruct (smooth_ok (smoother st) [k1; k2; k3; k4; k5; k6] Hok)
      as (sm' & out & -> & Hsm' & Hout).
    { split; [reflexivity|].
      repeat (apply Forall_cons; split; [assumption|]). apply Forall_nil_2. }
    cbn [mbind option_bind]. eexists. eexists. split; [reflexivity|].
    split; assumption.
Qed.

Lemma handle_click_ok (st : MainState) (px py : Z) :
  smoother_ok (smoother st) -> smoother_ok (smoother (handle_click st px py)).
Proof.
  intros H. destruct (handle_click_smoother st px py) as [-> | ->];
    [exact H | now apply reset_ok].
Qed.

Lemma handle_key_ok (st : MainState) (key : Z) :
  smoother_ok (smoother st) -> smoother_ok (smoother (handle_key st key).1).
Proof.
  intros H. destruct (handle_key_smoother st key) as [-> | ->];
    [exact H | now apply reset_ok].
Qed.

Lemma loop_body_ok (st : MainState) (inp : FrameInput) :
  smoother_ok (smoother st) -> skeleton_ok inp ->
  exists (st' : MainState) (data : option Packet) (brk : bool),
    loop_body sqrt st inp = Some (st', data, brk) /\
    smoother_ok (smoother st') /\
    (forall p : Packet, data = Some p -> angles_ok (angles p)).
Proof.
  intros Hok Hsk. unfold loop_body.
  destruct (cap_success inp); simpl.
  - destruct (process_frame_ok st (multi_hand_landmarks inp) Hok Hsk)
      as (st1 & pkt & -> & Hok1 & Hpkt).
    cbn [mbind option_bind].
    set (st2 := if mouse_clicked inp
                then handle_click st1 (mouse_x inp) (mouse_y inp) else st1).
    assert (smoother_ok (smoother st2)) as Hok2.
    { subst st2. destruct (mouse_clicked inp);
        [now apply handle_click_ok | exact Hok1]. }
    pose proof (handle_key_ok st2 (Z.land (waitKey inp) 255) Hok2) as Hok3.
    destruct (handle_key st2 (Z.land (waitKey inp) 255)) as [st3 brk].
    exists st3, (Some pkt), brk. split; [reflexivity|]. split; [exact Hok3|].
    intros p [= <-]. exact Hpkt.
  - exists st, None, false. split; [reflexivity|]. split; [exact Hok|].
    intros p [=].
Qed.

Lemma run_loop_ok (inputs : list FrameInput) :
  forall st : MainState,
    smoother_ok (smoother st) -> Forall skeleton_ok inputs ->
    exists (st' : MainState) (pkts : list Packet),
      run_loop sqrt st inputs = Some (st', pkts) /\
      Forall (fun p => angles_ok (angles p)) pkts.
Proof.
  induction inputs as [|inp inputs IH]; intros st Hok Hin.
  - exists st, []. split; [reflexivity | constructor].
  - apply Forall_cons in Hin as [Hsk Hin]. simpl.
    destruct (loop_body_ok st inp Hok Hsk)
      as (st1 & data & brk & -> & Hok1 & Hdata).
    cbn [mbind option_bind].
    assert (Forall (fun p => angles_ok (angles p))
              match data with Some d => [d] | None => [] end) as Hsent.
    { destruct data as [d|]; [|apply Forall_nil_2].
      apply Forall_cons. split; [now apply Hdata | apply Forall_nil_2]. }
    destruct brk.
    + eexists. eexists. split; [reflexivity | exact Hsent].
    + destruct (IH st1 Hok1 Hin) as (st2 & rest & -> & Hrest).
      cbn [mbind option_bind]. eexists. eexists. split; [reflexivity|].
      apply Forall_app. now split.
Qed.

(** C8.  Whatever the calibration file holds and whatever frames, clicks
    and keys arrive, as long as the detector reports skeletons of 21
    keypoints the loop never fails and every packet it sends carries
    exactly six integer angles, each in [[0, 1000]]. *)
Theorem packet_angles_in_range (loaded : option (gmap string (Q * Q)))
    (inputs : list FrameInput) :
  Forall skeleton_ok inputs ->
  exists (st' : MainState) (pkts : list Packet),
    run_loop sqrt (main_init loaded) inputs = Some (st', pkts) /\
    Forall (fun p => length (angles p) = 6%nat /\
                     Forall (fun k => (0 <= k <= 1000)%Z) (angles p)) pkts.
Proof.
  intros Hin. apply run_loop_ok; [apply init_smoother_ok | exact Hin].
Qed.

Lemma process_frame_no_hand (st : MainState) (hands : list (list Landmark)) :
  hands = [] -> process_frame sqrt st hands = Some (st, no_hand_packet).
Proof. intros ->. reflexivity. Qed.

Lemma loop_body_no_hand (st : MainState) (inp : FrameInput) :
  no_hand inp ->
  exists (st' : MainState) (data : option Packet) (brk : bool),
    loop_body sqrt st inp = Some (st', data, brk) /\
    (forall p : Packet, data = Some p -> p = no_hand_packet) /\
    (cap_success inp = true -> data = Some no_hand_packet) /\
    (frame_kept inp -> brk = false) /\
    smoothed (smoother st') = smoothed (smoother st) /\
    alpha (smoother st') = alpha (smoother st) /\
    (no_reset_event inp -> smoother st' = smoother st).
Proof.
  intros Hno. unfold loop_body.
  destruct (cap_success inp) eqn:Hcap; simpl.
  - rewrite (process_frame_no_hand st _ Hno). cbn [mbind option_bind].
    set (st2 := if mouse_clicked inp
                then handle_click st (mouse_x inp) (mouse_y inp) else st).
    assert (smoother st2 = smoother st \/ smoother st2 = reset (smoother st))
      as Hst2.
    { subst st2. destruct (mouse_clicked inp);
        [apply handle_click_smoother | now left]. }
    pose proof (handle_key_smoother st2 (Z.land (waitKey inp) 255)) as Hst3.
    pose proof (handle_key_quiet st2 (Z.land (waitKey inp) 255)) as Hquiet.
    assert (Z.land (waitKey inp) 255 <> 113%Z ->
            (handle_key st2 (Z.land (waitKey inp) 255)).2 = false) as Hbrk.
    { intros Hq. unfold handle_key. apply Z.eqb_neq in Hq. rewrite Hq.
      repeat match goal with
             | |- context [if ?b then _ else _] => destruct b
             end; reflexivity. }
    destruct (handle_key st2 (Z.land (waitKey inp) 255)) as [st3 brk].
    simpl in *. exists st3, (Some no_hand_packet), brk.
    split; [reflexivity|]. split; [now intros p [= <-]|].
    split; [reflexivity|]. split; [intros [_ Hq]; now apply Hbrk|].
    split; [|split].
    + destruct Hst3 as [-> | ->], Hst2 as [-> | ->]; reflexivity.
    + destruct Hst3 as [-> | ->], Hst2 as [-> | ->]; reflexivity.
    + intros (Hclick & H1 & H2 & H3). rewrite Hquiet by assumption.
      subst st2. now rewrite Hclick.
  - exists st, None, false. split; [reflexivity|].
    split; [intros p [=]|]. split; [intros [=]|]. repeat split.
Qed.

(** C3.  Processing a frame without a detected hand sends exactly
    [{detected: false, angles: [1000, 1000, 1000, 1000, 1000, 500],
    landmarks: []}] and returns the state, the smoother's running
    values and flag included, as it was.  Over any number of
    consecutive such frames the loop never fails, every packet it
    sends is that packet (one per frame while frames are read and the
    loop is not left), the running values of the smoother are the
    initial ones, and so is its flag unless a click or a calibration
    key resets it. *)
Theorem no_hand_frames (st : MainState) (inputs : list FrameInput) :
  Forall no_hand inputs ->
  (forall inp : FrameInput, inp ∈ inputs ->
     process_frame sqrt st (multi_hand_landmarks inp)
     = Some (st, no_hand_packet)) /\
  exists (st' : MainState) (pkts : list Packet),
    run_loop sqrt st inputs = Some (st', pkts) /\
    Forall (fun p => p = mkPacket false [1000; 1000; 1000; 1000; 1000; 500]%Z [])
           pkts /\
    (Forall frame_kept inputs -> length pkts = length inputs) /\
    smoothed (smoother st') = smoothed (smoother st) /\
    (Forall no_reset_event inputs -> smoother st' = smoother st).
Proof.
  intros Hno. split.
  - intros inp Hin. apply process_frame_no_hand.
    exact (proj1 (Forall_forall _ _) Hno inp Hin).
  - revert st. induction Hno as [|inp inputs Hinp Hno IH]; intros st.
    + exists st, []. repeat split; constructor.
    + simpl.
      destruct (loop_body_no_hand st inp Hinp)
        as (st1 & data & brk & -> & Hdata & Hsent & Hbrk & Hsm & _ & Hquiet).
      cbn [mbind option_bind].
      assert (Forall (fun p => p = no_hand_packet)
                match data with Some d => [d] | None => [] end) as Hhead.
      { destruct data as [d|]; [|apply Forall_nil_2].
        apply Forall_cons. split; [now apply Hdata | apply Forall_nil_2]. }
      destruct brk.
      * eexists. eexists. split; [reflexivity|]. split; [exact Hhead|].
        split; [|split; [exact Hsm|]].
        -- intros Hk. apply Forall_cons in Hk as [Hk _].
           now specialize (Hbrk Hk).
        -- intros Hq. apply Forall_cons in Hq as [Hq _]. now apply Hquiet.
      * destruct (IH st1) as (st2 & rest & -> & Hrest & Hlen & Hsm2 & Hq2).
        cbn [mbind option_bind]. eexists. eexists. split; [reflexivity|].
        split; [apply Forall_app; now split|].
        split; [|split; [now rewrite Hsm2|]].
        -- intros Hk. apply Forall_cons in Hk as [[Hcap Hk1] Hk].
           rewrite (Hsent Hcap). simpl. now rewrite (Hlen Hk).
        -- intros Hq. apply Forall_cons in Hq as [Hq1 Hq].
           rewrite (Hq2 Hq). now apply Hquiet.
Qed.

End Loop.

Lemma packet_angles_in_range_witness :
  exists (st' : MainState) (pkts : list Packet),
    run_loop sqrt_micro (main_init None)
      [hand_frame open_hand; idle_frame; click_open_frame bent_hand;
       hand_frame open_hand] = Some (st', pkts) /\
    Forall (fun p => length (angles p) = 6%nat /\
                     Forall (fun k => (0 <= k <= 1000)%Z) (angles p)) pkts.
Proof.
  apply (packet_angles_in_range sqrt_micro None).
  repeat (apply Forall_cons; split; [intros lms [= <-]; reflexivity|]).
  apply Forall_nil_2.
Defined.

Lemma no_hand_frames_witness :
  exists (st' : MainState) (pkts : list Packet),
    run_loop sqrt_micro (main_init None) [idle_frame; idle_frame]
      = Some (st', pkts) /\
    Forall (fun p => p = mkPacket false [1000; 1000; 1000; 1000; 1000; 500]%Z [])
           pkts /\
    (Forall frame_kept [idle_frame; idle_frame] -> length pkts = 2%nat) /\
    smoothed (smoother st') = smoothed (smoother (main_init None)) /\
    (Forall no_reset_event [idle_frame; idle_frame] ->
     smoother st' = smoother (main_init None)).
Proof.
  apply (no_hand_frames sqrt_micro (main_init None) [idle_frame; idle_frame]).
  repeat (apply Forall_cons; split; [reflexivity|]).
  apply Forall_nil_2.
Defined.

(** ** The calibration store: updates, persistence, capture *)

Lemma clamp01_mono (t1 t2 : Q) :
  (t1 <= t2)%Q -> (clamp01 t1 <= clamp01 t2)%Q.
Proof.
  intros H. unfold clamp01.
  apply Q.max_le_compat_l. now apply Q.min_le_compat_l.
Qed.

Lemma ratio_mono (x y d : Q) :
  (0 < d)%Q -> (x <= y)%Q -> (x / d <= y / d)%Q.
Proof.
  intros Hd H. unfold Qdiv. apply Qmult_le_compat_r; [exact H|].
  apply Qlt_le_weak. now apply Qinv_lt_0_compat.
Qed.

Lemma ratio_anti (x y d : Q) :
  (d < 0)%Q -> (x <= y)%Q -> (y / d <= x / d)%Q.
Proof.
  intros Hd H.
  assert (y / d == (- y) / (- d))%Q as -> by (field; lra).
  assert (x / d == (- x) / (- d))%Q as -> by (field; lra).
  apply ratio_mono; lra.
Qed.

Lemma floor_scaled_mono (t1 t2 : Q) :
  (t1 <= t2)%Q -> (Qfloor (t1 * 1000) <= Qfloor (t2 * 1000))%Z.
Proof. intros H. apply Qfloor_resp_le. lra. Qed.

(** X1.  On a channel of the store [update_min] writes the lower
    bound and keeps the upper one, [update_max] writes the upper bound
    and keeps the lower one, and neither touches another channel. *)
Theorem update_writes_one_bound (self : HandCalibration) (name : string)
    (mn mx v : Q) :
  finger_ranges self !! name = Some (mn, mx) ->
  finger_ranges (update_min self name v) !! name = Some (v, mx) /\
  finger_ranges (update_max self name v) !! name = Some (mn, v) /\
  (forall other : string, other <> name ->
     finger_ranges (update_min self name v) !! other
       = finger_ranges self !! other /\
     finger_ranges (update_max self name v) !! other
       = finger_ranges self !! other).
Proof.
  intros H. unfold update_min, update_max. rewrite H. simpl.
  split; [apply lookup_insert_eq|]. split; [apply lookup_insert_eq|].
  intros other Hne. split; apply lookup_insert_ne; congruence.
Qed.

Lemma update_writes_one_bound_witness :
  finger_ranges (update_min (mkHandCalibration default_ranges) "index" (3 # 4))
    !! "index" = Some (3 # 4, 11 # 5)%Q /\
  finger_ranges (update_max (mkHandCalibration default_ranges) "index" (3 # 4))
    !! "index" = Some (1 # 2, 3 # 4)%Q.
Proof.
  destruct (update_writes_one_bound (mkHandCalibration default_ranges)
              "index" (1 # 2) (11 # 5) (3 # 4)) as (H1 & H2 & _);
    [reflexivity|].
  split; [exact H1 | exact H2].
Defined.

(** X2.  Updates overwrite: a second [update_min] (or [update_max]) on
    the same name replaces the first, and an [update_min] and an
    [update_max] on the same name can be done in either order. *)
Theorem update_last_write_wins (self : HandCalibration) (name : string)
    (a b : Q) :
  update_min (update_min self name a) name b = update_min self name b /\
  update_max (update_max self name a) name b = update_max self name b /\
  update_max (update_min self name a) name b
    = update_min (update_max self name b) name a.
Proof.
  unfold update_min, update_max.
  destruct (finger_ranges self !! name) as [[mn mx]|] eqn:E; simpl.
  - rewrite !lookup_insert_eq. simpl. now rewrite !insert_insert_eq.
  - rewrite E. auto.
Qed.

(** X3.  On a range at least [0.001] wide [normalize] is monotone in
    the raw value: non-decreasing when [min < max], non-increasing
    when the range is inverted. *)
Theorem normalize_monotone (self : HandCalibration) (name : string)
    (mn mx r1 r2 : Q) (k1 k2 : Z) :
  finger_ranges self !! name = Some (mn, mx) ->
  (1 # 1000 <= Qabs (mx - mn))%Q ->
  (r1 <= r2)%Q ->
  normalize self name r1 = Some k1 ->
  normalize self name r2 = Some k2 ->
  ((mn < mx)%Q -> (k1 <= k2)%Z) /\ ((mx < mn)%Q -> (k2 <= k1)%Z).
Proof.
  intros Hl Hw Hr.
  rewrite !(normalize_wide self name mn mx) by assumption.
  intros [= <-] [= <-]. split; intros Hd.
  - apply floor_scaled_mono, clamp01_mono, ratio_mono; lra.
  - apply floor_scaled_mono, clamp01_mono, ratio_anti; lra.
Qed.

Lemma normalize_monotone_witness :
  normalize (mkHandCalibration default_ranges) "pinky" (1268 # 1000)
    = Some 451%Z /\
  normalize (mkHandCalibration default_ranges) "pinky" (1672 # 1000)
    = Some 689%Z /\
  (451 <= 689)%Z.
Proof.
  split; [reflexivity|]. split; [reflexivity|].
  apply (normalize_monotone (mkHandCalibration default_ranges) "pinky"
           (1 # 2) (11 # 5) (1268 # 1000) (1672 # 1000) 451 689);
    try reflexivity; vm_compute; discriminate.
Defined.

(** X4.  On a range at least [0.001] wide with [min < max], raw values
    at or below [min] give [0] and raw values at or above [max] give
    [1000]; on an inverted range it is the other way round: at or
    above [min] gives [0], at or below [max] gives [1000]. *)
Theorem normalize_saturates (self : HandCalibration) (name : string)
    (mn mx r : Q) :
  finger_ranges self !! name = Some (mn, mx) ->
  (1 # 1000 <= Qabs (mx - mn))%Q ->
  ((mn < mx)%Q ->
     ((r <= mn)%Q -> normalize self name r = Some 0%Z) /\
     ((mx <= r)%Q -> normalize self name r = Some 1000%Z)) /\
  ((mx < mn)%Q ->
     ((mn <= r)%Q -> normalize self name r = Some 0%Z) /\
     ((r <= mx)%Q -> normalize self name r = Some 1000%Z)).
Proof.
  intros Hl Hw. rewrite (normalize_wide self name mn mx) by assumption.
  assert ((0 # 1) / (mx - mn) == 0)%Q as E0 by (unfold Qdiv; ring).
  assert ((mx - mn) / (mx - mn) == 1)%Q as E1
    by (field; now apply wide_range_nonzero).
  split; intros Hd; split; intros Hr.
  - rewrite clamp01_low; [reflexivity|].
    rewrite <- E0. apply ratio_mono; lra.
  - rewrite clamp01_high; [reflexivity|].
    rewrite <- E1. apply ratio_mono; lra.
  - rewrite clamp01_low; [reflexivity|].
    rewrite <- E0. apply ratio_anti; lra.
  - rewrite clamp01_high; [reflexivity|].
    rewrite <- E1. apply ratio_anti; lra.
Qed.

Lemma normalize_saturates_witness :
  normalize (mkHandCalibration default_ranges) "thumb_rotation" (1 # 10)
    = Some 0%Z /\
  normalize (mkHandCalibration default_ranges) "thumb_rotation" (9 # 10)
    = Some 1000%Z.
Proof.
  destruct (normalize_saturates (mkHandCalibration default_ranges)
              "thumb_rotation" (3 # 20) (17 # 20) (1 # 10)) as [H1 _];
    [reflexivity | vm_compute; discriminate |].
  destruct (normalize_saturates (mkHandCalibration default_ranges)
              "thumb_rotation" (3 # 20) (17 # 20) (9 # 10)) as [H2 _];
    [reflexivity | vm_compute; discriminate |].
  split.
  - apply H1; [reflexivity | vm_compute; discriminate].
  - apply H2; [reflexivity | vm_compute; discriminate].
Defined.

(** X5.  A successful [save_calibration] followed by the construction
    of a new store from the file gives back every saved range; when
    the saved store has all six channels the new store is equal to
    it. *)
Theorem save_load_round_trip (self : HandCalibration) :
  (forall name : string, name ∈ finger_names ->
     is_Some (finger_ranges self !! name)) ->
  (save_calibration self Written).2 = true /\
  (forall (name : string) (r : Q * Q),
     finger_ranges self !! name = Some r ->
     finger_ranges (HandCalibration_init (save_calibration self Written).1)
       !! name = Some r) /\
  HandCalibration_init (save_calibration self Written).1 = self.
Proof.
  intros Hall. simpl. split; [reflexivity|]. split.
  - intros name r H. unfold HandCalibration_init. simpl.
    now apply lookup_union_Some_l.
  - unfold HandCalibration_init. simpl. destruct self as [m]. simpl in *.
    f_equal. apply map_eq. intros name.
    destruct (m !! name) as [r|] eqn:E.
    + now apply lookup_union_Some_l.
    + rewrite lookup_union_r by exact E.
      apply eq_None_not_Some. intros Hs.
      apply six_channel_default in Hs. apply Hall in Hs.
      rewrite E in Hs. now destruct Hs.
Qed.

Lemma save_load_round_trip_witness :
  HandCalibration_init
    (save_calibration
       (update_min (mkHandCalibration default_ranges) "ring" (7 # 10))
       Written).1
  = update_min (mkHandCalibration default_ranges) "ring" (7 # 10).
Proof.
  apply (save_load_round_trip
           (update_min (mkHandCalibration default_ranges) "ring" (7 # 10))).
  intros name Hn.
  apply (six_channel_update_min _ "ring" (7 # 10) six_channel_default).
  exact Hn.
Defined.

(** The capture loop over a list of names. *)
Lemma capture_fold_other
    (update : HandCalibration -> string -> Q -> HandCalibration)
    (raw : gmap string Q) (names : list string) (name : string) :
  (forall (c : HandCalibration) (n : string) (v : Q), n <> name ->
     finger_ranges (update c n v) !! name = finger_ranges c !! name) ->
  name ∉ names ->
  forall c : HandCalibration,
    finger_ranges
      (foldl (fun c fname =>
                match raw !! fname with
                | Some v => update c fname v
                | None => c
                end) c names) !! name
    = finger_ranges c !! name.
Proof.
  intros Hother. induction names as [|n names IH]; intros Hnot c;
    [reflexivity|].
  apply not_elem_of_cons in Hnot as [Hne Hnot]. simpl.
  rewrite IH by exact Hnot.
  destruct (raw !! n); [apply Hother; congruence | reflexivity].
Qed.

Lemma capture_fold_at
    (update : HandCalibration -> string -> Q -> HandCalibration)
    (g : Q * Q -> Q -> Q * Q)
    (raw : gmap string Q) (names : list string) (name : string) (v : Q) :
  (forall (c : HandCalibration) (n : string) (x : Q), n <> name ->
     finger_ranges (update c n x) !! name = finger_ranges c !! name) ->
  (forall (c : HandCalibration) (x : Q),
     finger_ranges (update c name x) !! name
     = (fun r => g r x) <$> finger_ranges c !! name) ->
  NoDup names -> name ∈ names -> raw !! name = Some v ->
  forall c : HandCalibration,
    finger_ranges
      (foldl (fun c fname =>
                match raw !! fname with
                | Some v => update c fname v
                | None => c
                end) c names) !! name
    = (fun r => g r v) <$> finger_ranges c !! name.
Proof.
  intros Hother Hat. induction names as [|n names IH];
    intros Hnd Hin Hraw c; [now apply elem_of_nil in Hin|].
  apply NoDup_cons in Hnd as [Hn Hnd]. simpl.
  destruct (decide (n = name)) as [->|Hne].
  - rewrite Hraw. rewrite (capture_fold_other update raw names name Hother Hn).
    apply Hat.
  - apply elem_of_cons in Hin as [Hin|Hin]; [congruence|].
    rewrite IH by assumption.
    destruct (raw !! n); [now rewrite Hother | reflexivity].
Qed.

Lemma finger_names_NoDup : NoDup finger_names.
Proof.
  unfold finger_names.
  repeat (apply NoDup_cons; split;
          [rewrite ?elem_of_cons, elem_of_nil; intuition discriminate|]).
  apply NoDup_nil_2.
Qed.

Lemma update_min_other (c : HandCalibration) (n name : string) (v : Q) :
  n <> name ->
  finger_ranges (update_min c n v) !! name = finger_ranges c !! name.
Proof.
  intros Hne. unfold update_min.
  destruct (finger_ranges c !! n) as [[mn mx]|]; [|reflexivity].
  simpl. now apply lookup_insert_ne.
Qed.

Lemma update_max_other (c : HandCalibration) (n name : string) (v : Q) :
  n <> name ->
  finger_ranges (update_max c n v) !! name = finger_ranges c !! name.
Proof.
  intros Hne. unfold update_max.
  destruct (finger_ranges c !! n) as [[mn mx]|]; [|reflexivity].
  simpl. now apply lookup_insert_ne.
Qed.

Lemma update_min_at (c : HandCalibration) (name : string) (v : Q) :
  finger_ranges (update_min c name v) !! name
  = (fun r : Q * Q => (v, r.2)) <$> finger_ranges c !! name.
Proof.
  unfold update_min.
  destruct (finger_ranges c !! name) as [[mn mx]|] eqn:E; simpl.
  - apply lookup_insert_eq.
  - exact E.
Qed.

Lemma update_max_at (c : HandCalibration) (name : string) (v : Q) :
  finger_ranges (update_max c name v) !! name
  = (fun r : Q * Q => (r.1, v)) <$> finger_ranges c !! name.
Proof.
  unfold update_max.
  destruct (finger_ranges c !! name) as [[mn mx]|] eqn:E; simpl.
  - apply lookup_insert_eq.
  - exact E.
Qed.

Lemma capture_max_at (self : HandCalibration) (raw : gmap string Q)
    (name : string) (v : Q) :
  name ∈ finger_names -> raw !! name = Some v ->
  finger_ranges (capture update_max self raw) !! name
  = (fun r : Q * Q => (r.1, v)) <$> finger_ranges self !! name.
Proof.
  intros Hin Hraw. unfold capture.
  apply (capture_fold_at update_max (fun r x => (r.1, x)));
    auto using finger_names_NoDup, update_max_at.
  intros c n x Hne. now apply update_max_other.
Qed.

Lemma capture_min_at (self : HandCalibration) (raw : gmap string Q)
    (name : string) (v : Q) :
  name ∈ finger_names -> raw !! name = Some v ->
  finger_ranges (capture update_min self raw) !! name
  = (fun r : Q * Q => (v, r.2)) <$> finger_ranges self !! name.
Proof.
  intros Hin Hraw. unfold capture.
  apply (capture_fold_at update_min (fun r x => (x, r.2)));
    auto using finger_names_NoDup, update_min_at.
  intros c n x Hne. now apply update_min_other.
Qed.

Lemma capture_unread (update : HandCalibration -> string -> Q -> HandCalibration)
    (self : HandCalibration) (raw : gmap string Q) (name : string) :
  (forall (c : HandCalibration) (n : string) (v : Q), n <> name ->
     finger_ranges (update c n v) !! name = finger_ranges c !! name) ->
  name ∉ finger_names \/ raw !! name = None ->
  finger_ranges (capture update self raw) !! name = finger_ranges self !! name.
Proof.
  intros Hother Hcase. unfold capture. revert self.
  induction finger_names as [|n names IH]; intros self; [reflexivity|].
  simpl. rewrite IH.
  - destruct (raw !! n) eqn:E; [|reflexivity].
    apply Hother. intros ->. destruct Hcase as [Hn|Hn]; [|congruence].
    apply Hn. now left.
  - destruct Hcase as [Hn|Hn]; [left|now right].
    intros Hin. apply Hn. now right.
Qed.

(** X7.  A capture writes, for every channel that has a reading, that
    reading into the upper bound (capture open) or the lower bound
    (capture closed) and keeps the other bound; a channel without a
    reading and any name that is not a channel keep their range. *)
Theorem capture_sets_bound (self : HandCalibration) (raw : gmap string Q)
    (name : string) (mn mx : Q) :
  finger_ranges self !! name = Some (mn, mx) ->
  (forall v : Q, name ∈ finger_names -> raw !! name = Some v ->
     finger_ranges (capture update_max self raw) !! name = Some (mn, v) /\
     finger_ranges (capture update_min self raw) !! name = Some (v, mx)) /\
  (name ∉ finger_names \/ raw !! name = None ->
     finger_ranges (capture update_max self raw) !! name = Some (mn, mx) /\
     finger_ranges (capture update_min self raw) !! name = Some (mn, mx)).
Proof.
  intros Hl. split.
  - intros v Hin Hraw.
    rewrite (capture_max_at self raw name v Hin Hraw).
    rewrite (capture_min_at self raw name v Hin Hraw).
    now rewrite Hl.
  - intros Hcase. rewrite <- Hl. split; apply capture_unread; try exact Hcase.
    + intros c n v Hne. now apply update_max_other.
    + intros c n v Hne. now apply update_min_other.
Qed.

Lemma capture_sets_bound_witness :
  finger_ranges
    (capture update_max (mkHandCalibration default_ranges)
             (<["pinky" := (9 # 5)%Q]> ∅)) !! "pinky"
  = Some (1 # 2, 9 # 5)%Q.
Proof.
  destruct (capture_sets_bound (mkHandCalibration default_ranges)
              (<["pinky" := (9 # 5)%Q]> ∅) "pinky" (1 # 2) (11 # 5))
    as [H _]; [reflexivity|].
  apply (H (9 # 5)%Q); [|reflexivity].
  unfold finger_names. apply elem_of_cons. now left.
Defined.

(** X8.  Capturing the closed and the open pose from the same readings
    collapses the range of every channel that was read: [normalize]
    then returns [500] for it whatever the raw value. *)
Theorem capture_same_pose_gives_500 (self : HandCalibration)
    (raw : gmap string Q) (name : string) (v r : Q) :
  name ∈ finger_names -> raw !! name = Some v ->
  normalize (capture update_max (capture update_min self raw) raw) name r
    = Some 500%Z /\
  normalize (capture update_min (capture update_max self raw) raw) name r
    = Some 500%Z.
Proof.
  intros Hin Hraw.
  assert (Py.lt (Qabs (v - v)) (1 # 1000) = true) as Hd.
  { apply lt_true. assert (v - v == 0)%Q as -> by ring. reflexivity. }
  pose proof (capture_max_at (capture update_min self raw) raw name v Hin Hraw)
    as H1.
  rewrite (capture_min_at self raw name v Hin Hraw) in H1.
  pose proof (capture_min_at (capture update_max self raw) raw name v Hin Hraw)
    as H2.
  rewrite (capture_max_at self raw name v Hin Hraw) in H2.
  unfold normalize. rewrite H1, H2.
  destruct (finger_ranges self !! name) as [[mn mx]|];
    cbn [fmap option_fmap option_map fst snd]; [|now split].
  now rewrite Hd.
Qed.

Lemma capture_same_pose_gives_500_witness :
  normalize
    (capture update_max
       (capture update_min (mkHandCalibration default_ranges)
                (<["index" := (6 # 5)%Q]> ∅))
       (<["index" := (6 # 5)%Q]> ∅)) "index" (2 # 1)
  = Some 500%Z.
Proof.
  apply (capture_same_pose_gives_500 (mkHandCalibration default_ranges)
           (<["index" := (6 # 5)%Q]> ∅) "index" (6 # 5) (2 # 1));
    [|reflexivity].
  unfold finger_names. rewrite !elem_of_cons. auto.
Defined.

(** X9.  After a capture the captured pose reads full scale: on a
    channel with a reading [v], capture open makes [normalize] return
    [1000] at [v] and capture closed makes it return [0] at [v],
    provided the new range is at least [0.001] wide. *)
Theorem captured_pose_reads_full_scale (self : HandCalibration)
    (raw : gmap string Q) (name : string) (mn mx v : Q) :
  name ∈ finger_names -> raw !! name = Some v ->
  finger_ranges self !! name = Some (mn, mx) ->
  ((1 # 1000 <= Qabs (v - mn))%Q ->
     normalize (capture update_max self raw) name v = Some 1000%Z) /\
  ((1 # 1000 <= Qabs (mx - v))%Q ->
     normalize (capture update_min self raw) name v = Some 0%Z).
Proof.
  intros Hin Hraw Hl. split; intros Hw.
  - rewrite (normalize_wide _ name mn v).
    + rewrite clamp01_high; [reflexivity|].
      assert ((v - mn) / (v - mn) == 1)%Q as ->
        by (field; now apply wide_range_nonzero).
      lra.
    + rewrite (capture_max_at self raw name v Hin Hraw). now rewrite Hl.
    + exact Hw.
  - rewrite (normalize_wide _ name v mx).
    + rewrite clamp01_low; [reflexivity|].
      assert ((v - v) / (mx - v) == 0)%Q as ->
        by (field; now apply wide_range_nonzero).
      lra.
    + rewrite (capture_min_at self raw name v Hin Hraw). now rewrite Hl.
    + exact Hw.
Qed.

Lemma captured_pose_reads_full_scale_witness :
  normalize
    (capture update_max (mkHandCalibration default_ranges)
             (<["thumb_bend" := (6 # 5)%Q]> ∅)) "thumb_bend" (6 # 5)
  = Some 1000%Z.
Proof.
  destruct (captured_pose_reads_full_scale (mkHandCalibration default_ranges)
              (<["thumb_bend" := (6 # 5)%Q]> ∅) "thumb_bend"
              (3 # 10) (3 # 2) (6 # 5)) as [H _];
    [unfold finger_names; rewrite !elem_of_cons; auto 10
    | reflexivity | reflexivity |].
  apply H. vm_compute. discriminate.
Defined.

(** ** The smoother: lengths and single steps *)

(** X10.  On an initialised smoother an input longer than the state
    makes [smooth] fail with [IndexError]; a shorter input blends the
    channels it covers, leaves the remaining running values alone and
    still returns one value per running value. *)
Theorem smooth_length_mismatch (self : AngleSmoother) (v : list Z) :
  initialized self = true ->
  ((length (smoothed self) < length v)%nat -> smooth self v = None) /\
  ((length v <= length (smoothed self))%nat ->
     exists (self' : AngleSmoother) (out : list Z),
       smooth self v = Some (self', out) /\
       length out = length (smoothed self) /\
       length (smoothed self') = length (smoothed self) /\
       (forall (i : nat) (a : Z) (s : Q),
          v !! i = Some a -> smoothed self !! i = Some s ->
          smoothed self' !! i = Some (blend (alpha self) a s)) /\
       (forall j : nat, (length v <= j)%nat ->
          smoothed self' !! j = smoothed self !! j)).
Proof.
  intros Hi. unfold smooth. rewrite Hi. simpl. split; intros Hlen.
  - rewrite smooth_loop_index_error; [reflexivity | simpl; lia].
  - destruct (smooth_loop_spec (alpha self) v 0 (smoothed self))
      as (sm' & -> & Hl & _ & Hat & Hafter); [simpl; lia|].
    simpl. eexists. eexists. split; [reflexivity|]. simpl.
    split; [now rewrite length_fmap|]. split; [exact Hl|]. split.
    + intros i a s Ha Hs. now apply (Hat i a s).
    + intros j Hj. apply Hafter. simpl. lia.
Qed.

Lemma smooth_length_mismatch_witness :
  smooth (mkAngleSmoother (1 # 2) [1; 2]%Q true) [1; 2; 3]%Z = None.
Proof.
  destruct (smooth_length_mismatch (mkAngleSmoother (1 # 2) [1; 2]%Q true)
              [1; 2; 3]%Z) as [H _]; [reflexivity|].
  apply H. simpl. lia.
Defined.

(** ** Feature extraction: what is read and what matters *)

Lemma index_None {A} (l : list A) (i : Z) :
  Py.index l i = None <-> ~ valid_index (length l) i.
Proof.
  unfold Py.index, valid_index.
  destruct (i <? 0)%Z eqn:E1.
  - apply Z.ltb_lt in E1.
    destruct (i + Z.of_nat (length l) <? 0)%Z eqn:E2.
    + apply Z.ltb_lt in E2. split; [lia | reflexivity].
    + apply Z.ltb_ge in E2. rewrite lookup_ge_None. lia.
  - apply Z.ltb_ge in E1. rewrite lookup_ge_None. lia.
Qed.

Lemma get_landmark_array_None (lms : list Landmark) (i : Z) :
  get_landmark_array lms i = None <-> ~ valid_index (length lms) i.
Proof.
  rewrite <- index_None. unfold get_landmark_array.
  destruct (Py.index lms i); cbn; split; intros H;
    first [discriminate H | reflexivity].
Qed.

Section ExtractionFacts.

Variable sqrt : Q -> Q.

(** X13.  The finger ratio fails exactly when the wrist, MCP or TIP
    index is outside the skeleton (Python's negative indices count as
    inside); the PIP and DIP arguments cannot make it fail. *)
Theorem finger_value_fails_iff (lms : list Landmark)
    (mcp pip dip tip wrist : Z) :
  calculate_finger_raw_value sqrt lms mcp pip dip tip wrist = None <->
  ~ (valid_index (length lms) wrist /\ valid_index (length lms) mcp /\
     valid_index (length lms) tip).
Proof.
  unfold calculate_finger_raw_value.
  destruct (get_landmark_array lms wrist) as [w|] eqn:Ew; simpl.
  2: { apply get_landmark_array_None in Ew. tauto. }
  destruct (get_landmark_array lms mcp) as [m|] eqn:Em; simpl.
  2: { apply get_landmark_array_None in Em. tauto. }
  destruct (get_landmark_array lms tip) as [t|] eqn:Et; simpl.
  2: { apply get_landmark_array_None in Et. tauto. }
  assert (forall i a, get_landmark_array lms i = Some a ->
                      valid_index (length lms) i) as Hv.
  { intros i a H. destruct (decide (valid_index (length lms) i)) as [|Hn];
      [assumption|].
    apply get_landmark_array_None in Hn. congruence. }
  split.
  - intros H. exfalso. eapply is_Some_None. rewrite <- H.
    apply guarded_ratio_total.
  - intros H. exfalso. apply H.
    split; [|split]; eapply Hv; eassumption.
Qed.

(** X14.  The thumb rotation reads the image-plane coordinates of the
    thumb tip, the index MCP and the pinky MCP only: two skeletons
    that agree on x and y at the indices 4, 5 and 17 give the same
    value, whatever their depths and their other keypoints. *)
Theorem thumb_rotation_ignores_depth (lms1 lms2 : list Landmark) :
  xy <$> Py.index lms1 4 = xy <$> Py.index lms2 4 ->
  xy <$> Py.index lms1 5 = xy <$> Py.index lms2 5 ->
  xy <$> Py.index lms1 17 = xy <$> Py.index lms2 17 ->
  calculate_thumb_rotation_raw sqrt lms1 = calculate_thumb_rotation_raw sqrt lms2.
Proof.
  unfold calculate_thumb_rotation_raw, get_landmark_array, xy.
  intros H4 H5 H17.
  destruct (Py.index lms1 4) as [[x1 y1 z1]|],
           (Py.index lms2 4) as [[x2 y2 z2]|]; try discriminate; simpl in *;
    [injection H4 as -> ->|reflexivity].
  destruct (Py.index lms1 5) as [[x3 y3 z3]|],
           (Py.index lms2 5) as [[x4 y4 z4]|]; try discriminate; simpl in *;
    [injection H5 as -> ->|reflexivity].
  destruct (Py.index lms1 17) as [[x5 y5 z5]|],
           (Py.index lms2 17) as [[x6 y6 z6]|]; try discriminate; simpl in *;
    [injection H17 as -> ->|reflexivity].
  reflexivity.
Qed.

(** X15.  The thumb bend reads the wrist, the thumb tip, the index MCP
    and the middle MCP only: two skeletons that agree at the indices
    0, 4, 5 and 9 give the same value. *)
Theorem thumb_bend_reads_four_keypoints (lms1 lms2 : list Landmark) :
  Py.index lms1 0 = Py.index lms2 0 ->
  Py.index lms1 4 = Py.index lms2 4 ->
  Py.index lms1 5 = Py.index lms2 5 ->
  Py.index lms1 9 = Py.index lms2 9 ->
  calculate_thumb_bend_raw sqrt lms1 = calculate_thumb_bend_raw sqrt lms2.
Proof.
  intros H0 H4 H5 H9. unfold calculate_thumb_bend_raw, get_landmark_array.
  now rewrite H0, H4, H5, H9.
Qed.

End ExtractionFacts.

Lemma thumb_rotation_ignores_depth_witness :
  calculate_thumb_rotation_raw sqrt_micro open_hand =
  calculate_thumb_rotation_raw sqrt_micro (shift 0 0 (3 # 4) <$> open_hand).
Proof.
  apply (thumb_rotation_ignores_depth sqrt_micro open_hand
           (shift 0 0 (3 # 4) <$> open_hand)); reflexivity.
Defined.

Lemma thumb_bend_reads_four_keypoints_witness :
  calculate_thumb_bend_raw sqrt_micro open_hand =
  calculate_thumb_bend_raw sqrt_micro bent_hand.
Proof.
  apply (thumb_bend_reads_four_keypoints sqrt_micro open_hand bent_hand);
    reflexivity.
Defined.

(** ** The loop: buttons, events and packets *)

Lemma buttons_apart (px py : Z) (i j : nat) (b1 b2 : Button) :
  buttons !! i = Some b1 -> buttons !! j = Some b2 -> i <> j ->
  contains b1 px py = true -> contains b2 px py = false.
Proof.
  intros Hi Hj Hne Hc.
  assert (i < 5 /\ j < 5)%nat as [Hi5 Hj5].
  { apply lookup_lt_Some in Hi, Hj. simpl in *. lia. }
  unfold contains in *.
  rewrite !andb_true_iff, !Z.leb_le in Hc.
  rewrite !andb_false_iff, !Z.leb_gt.
  destruct i as [|[|[|[|[|i]]]]]; try lia;
    destruct j as [|[|[|[|[|j]]]]]; try lia;
    simpl in Hi, Hj; injection Hi as <-; injection Hj as <-;
    simpl in *; lia.
Qed.

(** X17.  The five buttons do not overlap: a point inside one of them
    is outside every other one, so a click triggers at most one
    action. *)
Theorem buttons_disjoint (px py : Z) (i j : nat) (b1 b2 : Button) :
  buttons !! i = Some b1 -> buttons !! j = Some b2 -> i <> j ->
  contains b1 px py = true -> contains b2 px py = false.
Proof. apply buttons_apart. Qed.

Lemma buttons_disjoint_witness :
  contains btn_closed 520 30 = false.
Proof.
  apply (buttons_disjoint 520 30 0 1 btn_open btn_closed); try reflexivity.
  discriminate.
Defined.

(** X18.  Clicks and keys never change the smoother's running values
    or blend factor, nor the stored raw readings; the only thing they
    do to the smoother is clear its flag. *)
Theorem events_keep_running_values (st : MainState) (px py key : Z) :
  (smoothed (smoother (handle_click st px py)) = smoothed (smoother st) /\
   alpha (smoother (handle_click st px py)) = alpha (smoother st) /\
   current_raw_values (handle_click st px py) = current_raw_values st /\
   (initialized (smoother st) = false ->
    initialized (smoother (handle_click st px py)) = false)) /\
  (smoothed (smoother (handle_key st key).1) = smoothed (smoother st) /\
   alpha (smoother (handle_key st key).1) = alpha (smoother st) /\
   current_raw_values (handle_key st key).1 = current_raw_values st /\
   (initialized (smoother st) = false ->
    initialized (smoother (handle_key st key).1) = false)).
Proof.
  split.
  - unfold handle_click.
    repeat match goal with
           | |- context [if ?b then _ else _] => destruct b
           end; simpl; auto.
  - unfold handle_key.
    repeat match goal with
           | |- context [if ?b then _ else _] => destruct b
           end; simpl; auto.
Qed.

(** X19.  Before any hand was seen a capture does nothing: with no
    stored readings a click on "Calibrate OPEN" or "Calibrate CLOSED"
    and the keys [1] and [2] leave the whole state, the smoother's
    flag included, as it was. *)
Theorem capture_without_readings (st : MainState) (px py : Z) :
  current_raw_values st = ∅ ->
  (contains btn_open px py = true \/ contains btn_closed px py = true ->
   handle_click st px py = st) /\
  handle_key st 49 = (st, false) /\
  handle_key st 50 = (st, false).
Proof.
  intros He. unfold handle_click, handle_key, nonempty_dict. rewrite He.
  rewrite bool_decide_eq_true_2 by reflexivity. simpl.
  split; [|split; reflexivity].
  intros [H|H].
  - now rewrite H.
  - rewrite H. destruct (contains btn_open px py); reflexivity.
Qed.

Lemma capture_without_readings_witness :
  handle_click (main_init None) 520 30 = main_init None.
Proof.
  destruct (capture_without_readings (main_init None) 520 30) as [H _];
    [reflexivity|].
  apply H. left. reflexivity.
Defined.

(** X20.  A click on "Reset Defaults" and the key [r] put the default
    ranges back and clear the smoother's flag, whatever the state. *)
Theorem reset_restores_defaults (st : MainState) (px py : Z) :
  (contains btn_reset px py = true ->
   finger_ranges (calibration (handle_click st px py)) = default_ranges /\
   initialized (smoother (handle_click st px py)) = false) /\
  finger_ranges (calibration (handle_key st 114).1) = default_ranges /\
  initialized (smoother (handle_key st 114).1) = false.
Proof.
  split; [|split; reflexivity].
  intros H. unfold handle_click.
  rewrite (buttons_apart px py 3 0 btn_reset btn_open),
          (buttons_apart px py 3 1 btn_reset btn_closed),
          (buttons_apart px py 3 2 btn_reset btn_save), H;
    try reflexivity; try exact H; try discriminate.
  split; reflexivity.
Qed.

Lemma reset_restores_defaults_witness :
  finger_ranges
    (calibration
       (handle_click
          (mkMainState
             (update_max (mkHandCalibration default_ranges) "pinky" (1 # 1))
             (AngleSmoother_init (7 # 20)) true ∅) 600 180))
  = default_ranges.
Proof.
  destruct (reset_restores_defaults
              (mkMainState
                 (update_max (mkHandCalibration default_ranges) "pinky" (1 # 1))
                 (AngleSmoother_init (7 # 20)) true ∅) 600 180) as [H _].
  apply H. reflexivity.
Defined.

(** X21.  The mouse callback keeps a click pending and follows the
    pointer: after any sequence of callbacks the click flag is set iff
    it was set before or one of the events was a left-button press,
    and the stored position is that of the last event, not that of the
    press. *)
Theorem mouse_callbacks_state (g : MouseGlobals) (events : list (Z * Z * Z)) :
  g_mouse_clicked (mouse_callbacks g events)
    = g_mouse_clicked g
      || existsb (fun e => (e.1.1 =? EVENT_LBUTTONDOWN)%Z) events /\
  (g_mouse_x (mouse_callbacks g events), g_mouse_y (mouse_callbacks g events))
    = match last events with
      | Some (_, x, y) => (x, y)
      | None => (g_mouse_x g, g_mouse_y g)
      end.
Proof.
  unfold mouse_callbacks. revert g.
  induction events as [|[[ev x] y] events IH]; intros g; simpl.
  - now rewrite orb_false_r.
  - destruct (IH (mouse_callback g ev x y)) as [H1 H2].
    rewrite H1, H2. split.
    + simpl. destruct (ev =? EVENT_LBUTTONDOWN)%Z; simpl;
        [now rewrite orb_true_r | reflexivity].
    + destruct events as [|e events]; [reflexivity|].
      rewrite last_cons_cons.
      destruct (last (e :: events)) as [[[? ?] ?]|] eqn:El; [reflexivity|].
      apply last_None in El. discriminate El.
Qed.

Lemma six_readings (r1 r2 r3 r4 r5 r6 : Q) :
  all_channels_read
    (<["pinky" := r1]> (<["ring" := r2]> (<["middle" := r3]>
     (<["index" := r4]> (<["thumb_bend" := r5]>
     (<["thumb_rotation" := r6]> ∅)))))).
Proof.
  intros name Hn. rewrite !lookup_insert_is_Some'.
  unfold finger_names in Hn. rewrite !elem_of_cons, elem_of_nil in Hn.
  intuition auto.
Qed.

Lemma handle_click_six (st : MainState) (px py : Z) :
  six_channel_store (calibration st) ->
  six_channel_store (calibration (handle_click st px py)).
Proof.
  intros H. unfold handle_click.
  repeat match goal with
         | |- context [if ?b then _ else _] => destruct b
         end; simpl;
    auto using six_channel_capture, six_channel_update_min,
      six_channel_update_max, six_channel_reset.
Qed.

Lemma handle_key_six (st : MainState) (key : Z) :
  six_channel_store (calibration st) ->
  six_channel_store (calibration (handle_key st key).1).
Proof.
  intros H. unfold handle_key.
  repeat match goal with
         | |- context [if ?b then _ else _] => destruct b
         end; simpl;
    auto using six_channel_capture, six_channel_update_min,
      six_channel_update_max, six_channel_reset.
Qed.

Lemma handle_key_calibration_quiet (st : MainState) (key : Z) :
  key <> 49%Z -> key <> 50%Z -> key <> 114%Z ->
  calibration (handle_key st key).1 = calibration st.
Proof.
  intros H1 H2 H3. unfold handle_key.
  apply Z.eqb_neq in H1, H2, H3. rewrite H1, H2, H3. simpl.
  repeat match goal with
         | |- context [if ?b then _ else _] => destruct b
         end; reflexivity.
Qed.

Section LoopFacts.

Variable sqrt : Q -> Q.

(** What a successful [process_frame] on a detected hand returns. *)
Lemma process_frame_hand_inv (st st' : MainState) (lms : list Landmark)
    (rest : list (list Landmark)) (pkt : Packet) :
  process_frame sqrt st (lms :: rest) = Some (st', pkt) ->
  exists (ks : list Z) (sm' : AngleSmoother),
    smooth (smoother st) ks = Some (sm', angles pkt) /\
    smoother st' = sm' /\
    calibration st' = calibration st /\
    mirror_mode st' = mirror_mode st /\
    all_channels_read (current_raw_values st') /\
    detected pkt = true /\ landmarks pkt = lms.
Proof.
  unfold process_frame. intros H.
  repeat (apply bind_Some in H as (? & ? & H)).
  match goal with p : (AngleSmoother * list Z)%type |- _ => destruct p end.
  injection H as <- <-. simpl.
  eexists. eexists. split; [eassumption|].
  repeat split. apply six_readings.
Qed.

Lemma process_frame_inv (st st' : MainState) (hands : list (list Landmark))
    (pkt : Packet) :
  process_frame sqrt st hands = Some (st', pkt) ->
  calibration st' = calibration st /\
  mirror_mode st' = mirror_mode st /\
  ((hands = [] /\ st' = st /\ pkt = no_hand_packet) \/
   (detected pkt = true /\ head hands = Some (landmarks pkt) /\
    all_channels_read (current_raw_values st'))).
Proof.
  destruct hands as [|lms rest]; intros H.
  - injection H as <- <-. repeat split. now left.
  - apply process_frame_hand_inv in H
      as (ks & sm' & _ & _ & Hc & Hm & Hr & Hd & Hl).
    repeat split; try assumption. right. rewrite Hl. now repeat split.
Qed.

(** X22.  On an uninitialised smoother (at start-up and after every
    capture or reset) the packet of a detected hand carries the six
    normalised readings themselves, in the order pinky, ring, middle,
    index, thumb bend, thumb rotation, computed from the keypoints
    17/20, 13/16, 9/12 and 5/8 and the two thumb functions; nothing of
    the earlier running values enters it. *)
Theorem cold_start_packet (st : MainState) (lms : list Landmark)
    (rest : list (list Landmark)) :
  initialized (smoother st) = false ->
  length lms = 21%nat ->
  exists (st' : MainState) (pkt : Packet),
    process_frame sqrt st (lms :: rest) = Some (st', pkt) /\
    detected pkt = true /\ landmarks pkt = lms /\
    initialized (smoother st') = true /\
    smoothed (smoother st') = inject_Z <$> angles pkt /\
    length (angles pkt) = 6%nat /\
    angles pkt !! 0%nat =
      (calculate_finger_raw_value sqrt lms 17 18 19 20 0
         ≫= normalize (calibration st) "pinky") /\
    angles pkt !! 1%nat =
      (calculate_finger_raw_value sqrt lms 13 14 15 16 0
         ≫= normalize (calibration st) "ring") /\
    angles pkt !! 2%nat =
      (calculate_finger_raw_value sqrt lms 9 10 11 12 0
         ≫= normalize (calibration st) "middle") /\
    angles pkt !! 3%nat =
      (calculate_finger_raw_value sqrt lms 5 6 7 8 0
         ≫= normalize (calibration st) "index") /\
    angles pkt !! 4%nat =
      (calculate_thumb_bend_raw sqrt lms
         ≫= normalize (calibration st) "thumb_bend") /\
    angles pkt !! 5%nat =
      (calculate_thumb_rotation_raw sqrt lms
         ≫= normalize (calibration st) "thumb_rotation").
Proof.
  intros Hi Hsk. unfold process_frame.
  destruct (finger_raw_total sqrt lms 17 18 19 20 Hsk) as [r1 ->]; [lia..|].
  destruct (finger_raw_total sqrt lms 13 14 15 16 Hsk) as [r2 ->]; [lia..|].
  destruct (finger_raw_total sqrt lms 9 10 11 12 Hsk) as [r3 ->]; [lia..|].
  destruct (finger_raw_total sqrt lms 5 6 7 8 Hsk) as [r4 ->]; [lia..|].
  destruct (thumb_bend_total sqrt lms Hsk) as [r5 ->].
  destruct (thumb_rotation_total sqrt lms Hsk) as [r6 ->].
  cbn [mbind option_bind].
  destruct (normalize_total (calibration st) "pinky" r1) as (k1 & -> & _).
  destruct (normalize_total (calibration st) "ring" r2) as (k2 & -> & _).
  destruct (normalize_total (calibration st) "middle" r3) as (k3 & -> & _).
  destruct (normalize_total (calibration st) "index" r4) as (k4 & -> & _).
  destruct (normalize_total (calibration st) "thumb_bend" r5) as (k5 & -> & _).
  destruct (normalize_total (calibration st) "thumb_rotation" r6)
    as (k6 & -> & _).
  cbn [mbind option_bind].
  unfold smooth. rewrite Hi. cbn [negb mbind option_bind].
  rewrite int_inject_list.
  eexists. eexists. split; [reflexivity|]. cbn [detected landmarks angles
    smoother initialized smoothed].
  repeat split.
Qed.

End LoopFacts.

Lemma cold_start_packet_witness :
  exists (st' : MainState) (pkt : Packet),
    process_frame sqrt_micro (main_init None) [open_hand] = Some (st', pkt) /\
    angles pkt = [451; 483; 539; 689; 0; 0]%Z.
Proof.
  destruct (cold_start_packet sqrt_micro (main_init None) open_hand [])
    as (st' & pkt & Hrun & _); [reflexivity | reflexivity |].
  exists st', pkt. split; [exact Hrun|].
  vm_compute in Hrun. injection Hrun as _ <-. reflexivity.
Defined.

Lemma handle_click_readings (st : MainState) (px py : Z) :
  current_raw_values (handle_click st px py) = current_raw_values st.
Proof.
  unfold handle_click.
  repeat match goal with
         | |- context [if ?b then _ else _] => destruct b
         end; reflexivity.
Qed.

Lemma handle_key_readings (st : MainState) (key : Z) :
  current_raw_values (handle_key st key).1 = current_raw_values st.
Proof.
  unfold handle_key.
  repeat match goal with
         | |- context [if ?b then _ else _] => destruct b
         end; reflexivity.
Qed.

Section LoopRuns.

Variable sqrt : Q -> Q.

(** One iteration, taken apart. *)
Lemma loop_body_inv (st st' : MainState) (inp : FrameInput)
    (data : option Packet) (brk : bool) :
  loop_body sqrt st inp = Some (st', data, brk) ->
  (cap_success inp = false /\ st' = st /\ data = None /\ brk = false) \/
  (cap_success inp = true /\
   exists (st1 : MainState) (pkt : Packet),
     process_frame sqrt st (multi_hand_landmarks inp) = Some (st1, pkt) /\
     data = Some pkt /\
     (st', brk) =
       handle_key (if mouse_clicked inp
                   then handle_click st1 (mouse_x inp) (mouse_y inp)
                   else st1)
                  (Z.land (waitKey inp) 255)).
Proof.
  unfold loop_body. destruct (cap_success inp); simpl; intros H.
  - right. split; [reflexivity|].
    apply bind_Some in H as ([st1 pkt] & Hp & H).
    exists st1, pkt. split; [exact Hp|].
    destruct (handle_key _ _) as [st3 b]. injection H as <- <- <-. now split.
  - left. injection H as <- <- <-. now repeat split.
Qed.

(** Induction over the iterations of a run. *)
Lemma run_loop_ind (R : FrameInput -> Prop) (P : MainState -> Prop)
    (Q : Packet -> Prop) :
  (forall (st st' : MainState) (inp : FrameInput) (data : option Packet)
          (brk : bool),
     R inp -> P st -> loop_body sqrt st inp = Some (st', data, brk) ->
     P st' /\ (forall p : Packet, data = Some p -> Q p)) ->
  forall (inputs : list FrameInput) (st st' : MainState) (pkts : list Packet),
    Forall R inputs -> P st ->
    run_loop sqrt st inputs = Some (st', pkts) ->
    P st' /\ Forall Q pkts.
Proof.
  intros Hstep. induction inputs as [|inp inputs IH];
    intros st st' pkts HR HP Hrun; simpl in Hrun.
  - injection Hrun as <- <-. split; [exact HP | constructor].
  - apply Forall_cons in HR as [HR1 HR].
    apply bind_Some in Hrun as ([[st1 data] brk] & Hbody & Hrun).
    destruct (Hstep st st1 inp data brk HR1 HP Hbody) as [HP1 HQ].
    assert (Forall Q match data with Some d => [d] | None => [] end) as Hsent.
    { destruct data as [d|]; [|apply Forall_nil_2].
      apply Forall_cons. split; [now apply HQ | apply Forall_nil_2]. }
    destruct brk.
    + injection Hrun as <- <-. now split.
    + apply bind_Some in Hrun as ([st2 rest] & Hrest & Hrun).
      injection Hrun as <- <-.
      destruct (IH st1 st2 rest HR HP1 Hrest) as [HP2 HQ2].
      split; [exact HP2 | apply Forall_app; now split].
Qed.

(** X23.  The stored raw readings are never cleared: once they hold a
    reading for every channel (that is, from the first detected hand
    on) they do so for the rest of the run, so a capture on a later
    frame without a hand works on the readings of the last hand
    seen. *)
Theorem readings_never_cleared (inputs : list FrameInput)
    (st st' : MainState) (pkts : list Packet) :
  run_loop sqrt st inputs = Some (st', pkts) ->
  all_channels_read (current_raw_values st) \/
    (exists p : Packet, p ∈ pkts /\ detected p = true) ->
  all_channels_read (current_raw_values st').
Proof.
  revert st st' pkts. induction inputs as [|inp inputs IH];
    intros st st' pkts Hrun Hcase; simpl in Hrun.
  - injection Hrun as <- <-. destruct Hcase as [H|(p & Hp & _)];
      [exact H | now apply elem_of_nil in Hp].
  - apply bind_Some in Hrun as ([[st1 data] brk] & Hbody & Hrun).
    assert ((all_channels_read (current_raw_values st) ->
             all_channels_read (current_raw_values st1)) /\
            (forall p : Packet, data = Some p -> detected p = true ->
               all_channels_read (current_raw_values st1))) as [Hkeep Hnew].
    { apply loop_body_inv in Hbody
        as [(_ & -> & -> & _) | (_ & st0 & pkt & Hp & -> & Hk)].
      - split; [auto | discriminate].
      - assert (current_raw_values st1 = current_raw_values st0) as ->.
        { change st1 with (st1, brk).1. rewrite Hk, handle_key_readings.
          destruct (mouse_clicked inp);
            [apply handle_click_readings | reflexivity]. }
        apply process_frame_inv in Hp
          as (_ & _ & [(_ & -> & ->) | (_ & _ & Hr)]).
        + split; [auto|]. intros p [= <-]. discriminate.
        + split; auto. }
    set (sent := match data with Some d => [d] | None => [] end) in *.
    assert ((exists p : Packet, p ∈ sent /\ detected p = true) ->
            all_channels_read (current_raw_values st1)) as Hsent.
    { intros (p & Hp & Hd). subst sent. destruct data as [d|];
        [|now apply elem_of_nil in Hp].
      apply list_elem_of_singleton in Hp as ->. now apply (Hnew d). }
    destruct brk.
    + injection Hrun as <- <-. destruct Hcase as [H|H]; auto.
    + apply bind_Some in Hrun as ([st2 rest] & Hrest & Hrun).
      injection Hrun as <- <-. apply (IH st1 st2 rest Hrest).
      destruct Hcase as [H|(p & Hp & Hd)]; [left; auto|].
      apply elem_of_app in Hp as [Hp|Hp]; [left; eauto | right; eauto].
Qed.

(** X24.  A run sends at most one packet per frame, and every packet
    is either the no-hand packet or carries [detected = true] and,
    unchanged, the keypoints of the first hand of one of the frames. *)
Theorem packets_reflect_frames (inputs : list FrameInput)
    (st st' : MainState) (pkts : list Packet) :
  run_loop sqrt st inputs = Some (st', pkts) ->
  (length pkts <= length inputs)%nat /\
  Forall (fun p =>
            p = no_hand_packet \/
            (detected p = true /\
             exists inp : FrameInput,
               inp ∈ inputs /\
               head (multi_hand_landmarks inp) = Some (landmarks p))) pkts.
Proof.
  revert st st' pkts. induction inputs as [|inp inputs IH];
    intros st st' pkts Hrun; simpl in Hrun.
  - injection Hrun as <- <-. split; [reflexivity | constructor].
  - apply bind_Some in Hrun as ([[st1 data] brk] & Hbody & Hrun).
    set (sent := match data with Some d => [d] | None => [] end) in *.
    assert ((length sent <= 1)%nat /\
            Forall (fun p =>
                      p = no_hand_packet \/
                      (detected p = true /\
                       exists i : FrameInput,
                         i ∈ inp :: inputs /\
                         head (multi_hand_landmarks i) = Some (landmarks p)))
                   sent) as [Hlen Hsent].
    { subst sent.
      apply loop_body_inv in Hbody
        as [(_ & _ & -> & _) | (_ & st0 & pkt & Hp & -> & _)].
      - split; [simpl; lia | constructor].
      - split; [simpl; lia|].
        apply Forall_cons. split; [|apply Forall_nil_2].
        apply process_frame_inv in Hp
          as (_ & _ & [(_ & _ & ->) | (Hd & Hh & _)]); [now left|].
        right. split; [exact Hd|]. exists inp. split; [now left | exact Hh]. }
    destruct brk.
    + injection Hrun as <- <-. split; [simpl; lia | exact Hsent].
    + apply bind_Some in Hrun as ([st2 rest] & Hrest & Hrun).
      injection Hrun as <- <-.
      destruct (IH st1 st2 rest Hrest) as [Hl Hrest'].
      split; [rewrite length_app; simpl; lia|].
      apply Forall_app. split; [exact Hsent|].
      eapply Forall_impl; [exact Hrest'|].
      intros p [->|(Hd & i & Hi & Hh)]; [now left|].
      right. split; [exact Hd|]. exists i. split; [now right | exact Hh].
Qed.

(** X25.  A frame the camera failed to deliver is skipped altogether,
    clicks and keys included; a delivered frame with the key [q]
    (after masking the key code to eight bits) is the last one: its
    packet is sent and no later frame is looked at. *)
Theorem loop_control (st : MainState) (inp : FrameInput)
    (rest : list FrameInput) :
  (cap_success inp = false ->
   run_loop sqrt st (inp :: rest) = run_loop sqrt st rest) /\
  (cap_success inp = true -> Z.land (waitKey inp) 255 = 113%Z ->
   run_loop sqrt st (inp :: rest) = run_loop sqrt st [inp]).
Proof.
  split.
  - intros Hc. simpl. unfold loop_body. rewrite Hc. simpl.
    destruct (run_loop sqrt st rest) as [[st2 pkts]|]; reflexivity.
  - intros Hc Hq. simpl. unfold loop_body. rewrite Hc, Hq. simpl.
    destruct (process_frame sqrt st (multi_hand_landmarks inp))
      as [[st1 pkt]|]; reflexivity.
Qed.

(** X26.  A store with the six channel names as its keys keeps exactly
    these keys through a whole run, whatever is detected, clicked or
    typed: no channel is added or lost. *)
Theorem loop_keeps_six_channels (inputs : list FrameInput)
    (st st' : MainState) (pkts : list Packet) :
  six_channel_store (calibration st) ->
  run_loop sqrt st inputs = Some (st', pkts) ->
  six_channel_store (calibration st').
Proof.
  intros Hsix Hrun.
  apply (run_loop_ind (fun _ => True)
           (fun s => six_channel_store (calibration s)) (fun _ => True)
           ) with (inputs := inputs) (st := st) (pkts := pkts);
    [| apply Forall_true; auto | exact Hsix | exact Hrun].
  intros s s' inp data brk _ HP Hbody. split; [|auto].
  apply loop_body_inv in Hbody
    as [(_ & -> & _) | (_ & st0 & pkt & Hp & _ & Hk)]; [exact HP|].
  apply process_frame_inv in Hp as (Hcal & _).
  change s' with (s', brk).1. rewrite Hk. apply handle_key_six.
  destruct (mouse_clicked inp); [apply handle_click_six|]; now rewrite Hcal.
Qed.

(** X27.  Detection alone never recalibrates: over a run without a
    click and without the keys [1], [2] and [r] the calibration store
    at the end is the one at the start. *)
Theorem frames_keep_calibration (inputs : list FrameInput)
    (st st' : MainState) (pkts : list Packet) :
  Forall no_reset_event inputs ->
  run_loop sqrt st inputs = Some (st', pkts) ->
  calibration st' = calibration st.
Proof.
  intros Hq Hrun.
  apply (run_loop_ind no_reset_event
           (fun s => calibration s = calibration st) (fun _ => True)
           ) with (inputs := inputs) (st := st) (pkts := pkts);
    [| exact Hq | reflexivity | exact Hrun].
  intros s s' inp data brk (Hclick & H1 & H2 & H3) HP Hbody. split; [|auto].
  apply loop_body_inv in Hbody
    as [(_ & -> & _) | (_ & st0 & pkt & Hp & _ & Hk)]; [exact HP|].
  apply process_frame_inv in Hp as (Hcal & _).
  change s' with (s', brk).1. rewrite Hk, Hclick.
  rewrite handle_key_calibration_quiet by assumption. congruence.
Qed.

End LoopRuns.

Lemma readings_never_cleared_witness :
  exists (st' : MainState) (pkts : list Packet),
    run_loop sqrt_micro (main_init None)
      [hand_frame open_hand; idle_frame; idle_frame] = Some (st', pkts) /\
    all_channels_read (current_raw_values st').
Proof.
  assert (exists (st' : MainState) (pkts : list Packet),
            run_loop sqrt_micro (main_init None)
              [hand_frame open_hand; idle_frame; idle_frame]
              = Some (st', pkts) /\
            exists p : Packet, p ∈ pkts /\ detected p = true)
    as (st' & pkts & Hrun & Hp).
  { eexists. eexists. split; [vm_compute; reflexivity|].
    eexists. split; [apply list_elem_of_here | reflexivity]. }
  exists st', pkts. split; [exact Hrun|].
  apply (readings_never_cleared sqrt_micro _ _ _ _ Hrun). now right.
Defined.

Lemma loop_control_witness :
  run_loop sqrt_micro (main_init None)
    [mkFrameInput true [] 0 0 false 113; hand_frame open_hand]
  = run_loop sqrt_micro (main_init None) [mkFrameInput true [] 0 0 false 113].
Proof.
  apply (loop_control sqrt_micro (main_init None)
           (mkFrameInput true [] 0 0 false 113) [hand_frame open_hand]);
    reflexivity.
Defined.

Lemma loop_keeps_six_channels_witness :
  exists (st' : MainState) (pkts : list Packet),
    run_loop sqrt_micro (main_init None)
      [hand_frame open_hand; click_open_frame bent_hand] = Some (st', pkts) /\
    six_channel_store (calibration st').
Proof.
  assert (exists (st' : MainState) (pkts : list Packet),
            run_loop sqrt_micro (main_init None)
              [hand_frame open_hand; click_open_frame bent_hand]
              = Some (st', pkts)) as (st' & pkts & Hrun).
  { eexists. eexists. vm_compute. reflexivity. }
  exists st', pkts. split; [exact Hrun|].
  apply (loop_keeps_six_channels sqrt_micro
           [hand_frame open_hand; click_open_frame bent_hand]
           (main_init None) st' pkts);
    [apply six_channel_default | exact Hrun].
Defined.

Lemma frames_keep_calibration_witness :
  exists (st' : MainState) (pkts : list Packet),
    run_loop sqrt_micro (main_init None)
      [hand_frame open_hand; idle_frame; hand_frame bent_hand]
      = Some (st', pkts) /\
    calibration st' = calibration (main_init None).
Proof.
  assert (exists (st' : MainState) (pkts : list Packet),
            run_loop sqrt_micro (main_init None)
              [hand_frame open_hand; idle_frame; hand_frame bent_hand]
              = Some (st', pkts)) as (st' & pkts & Hrun).
  { eexists. eexists. vm_compute. reflexivity. }
  exists st', pkts. split; [exact Hrun|].
  apply (frames_keep_calibration sqrt_micro
           [hand_frame open_hand; idle_frame; hand_frame bent_hand]
           (main_init None) st' pkts);
    [|exact Hrun].
  repeat (apply Forall_cons; split;
          [repeat split; vm_compute; discriminate|]).
  apply Forall_nil_2.
Defined.

Lemma packets_reflect_frames_witness :
  exists (st' : MainState) (pkts : list Packet),
    run_loop sqrt_micro (main_init None) [hand_frame open_hand; idle_frame]
      = Some (st', pkts) /\
    (length pkts <= 2)%nat.
Proof.
  assert (exists (st' : MainState) (pkts : list Packet),
            run_loop sqrt_micro (main_init None)
              [hand_frame open_hand; idle_frame]
              = Some (st', pkts)) as (st' & pkts & Hrun).
  { eexists. eexists. vm_compute. reflexivity. }
  exists st', pkts. split; [exact Hrun|].
  apply (packets_reflect_frames sqrt_micro [hand_frame open_hand; idle_frame]
           (main_init None) st' pkts Hrun).
Defined.

(** ** Binary64: basic facts *)

Lemma Qtrunc_comp (x y : Q) : (x == y)%Q -> Qtrunc x = Qtrunc y.
Proof.
  intros E. unfold Qtrunc. rewrite (Qleb_comp 0%Q 0%Q (Qeq_refl 0%Q) _ _ E).
  destruct (Qle_bool 0 y); [now apply Qfloor_comp | now apply Qceiling_comp].
Qed.

Lemma Qtrunc_inject_Z (z : Z) : Qtrunc (inject_Z z) = z.
Proof.
  unfold Qtrunc. destruct (Qle_bool 0 (inject_Z z));
    [apply Qfloor_Z | apply Qceiling_Z].
Qed.

Lemma Qtrunc_opp (x : Q) : Qtrunc (- x) = (- Qtrunc x)%Z.
Proof.
  destruct (Qlt_le_dec 0 x) as [H|H]; [|destruct (Qlt_le_dec x 0) as [H'|H']].
  - rewrite <- !int_trunc. rewrite int_neg by lra. rewrite int_nonneg by lra.
    unfold Qceiling. now rewrite Qopp_involutive.
  - rewrite <- !int_trunc. rewrite int_nonneg by lra. rewrite int_neg by lra.
    unfold Qceiling. lia.
  - assert (x == inject_Z 0)%Q as E by (change (inject_Z 0) with 0%Q; lra).
    assert (- x == inject_Z 0)%Q as E' by (change (inject_Z 0) with 0%Q; lra).
    rewrite (Qtrunc_comp _ _ E), (Qtrunc_comp _ _ E'), Qtrunc_inject_Z.
    reflexivity.
Qed.

Lemma Qtrunc_pos_shift (m p : positive) :
  Qtrunc (inject_Z (Zpos m) * 2 ^ Zneg p) = Z.shiftr (Zpos m) (Zpos p).
Proof.
  rewrite Z.shiftr_div_pow2 by lia.
  rewrite Zdiv_Qdiv. rewrite <- int_trunc, int_nonneg.
  - apply Qfloor_comp. rewrite Zpower_Qpower by lia.
    change (2 ^ Zneg p)%Q with (/ (2 ^ Zpos p))%Q. reflexivity.
  - apply Qmult_le_0_compat; [now rewrite <- (Zle_Qle 0)|].
    change (2 ^ Zneg p)%Q with (/ (2 ^ Zpos p))%Q.
    apply Qinv_le_0_compat. apply Qpower_pos_positive. lra.
Qed.

Lemma Qtrunc_magnitude (m : positive) (e : Z) :
  Qtrunc (inject_Z (Zpos m) * 2 ^ e) =
    match e with
    | Z0 => Zpos m
    | Zpos p => Z.shiftl (Zpos m) (Zpos p)
    | Zneg p => Z.shiftr (Zpos m) (Zpos p)
    end.
Proof.
  destruct e as [|p|p].
  - rewrite <- (Qtrunc_inject_Z (Zpos m)) at 2.
    apply Qtrunc_comp. simpl. ring.
  - rewrite Z.shiftl_mul_pow2 by lia.
    rewrite <- (Qtrunc_inject_Z (Zpos m * 2 ^ Zpos p)).
    apply Qtrunc_comp. rewrite inject_Z_mult, Zpower_Qpower by lia.
    reflexivity.
  - apply Qtrunc_pos_shift.
Qed.

(** [int] of a float is the truncation toward zero of the number the
    float stands for; it fails exactly on NaN and the infinities. *)
Lemma trunc_exact (x : PrimFloat.float) :
  Dbl.trunc x = Qtrunc <$> Dbl.exact x.
Proof.
  unfold Dbl.trunc, Dbl.exact.
  destruct (FloatOps.Prim2SF x) as [s|s| |s m e]; try reflexivity.
  cbn [fmap option_fmap option_map]. f_equal.
  rewrite <- Qtrunc_magnitude. destruct s; [|reflexivity].
  rewrite <- Qtrunc_opp. apply Qtrunc_comp. ring.
Qed.

Section DoubleFacts.

Import PrimFloat.
Local Open Scope float_scope.

Lemma of_Z_0 : Dbl.of_Z 0 = 0.
Proof. vm_compute. reflexivity. Qed.

Lemma of_Z_1 : Dbl.of_Z 1 = 1.
Proof. vm_compute. reflexivity. Qed.

Lemma as_float_1000 : Dbl.as_float (Dbl.Int 1000) = Some 1000.
Proof. vm_compute. reflexivity. Qed.

(** Past the degenerate-range test the divisor is not zero, so the
    division of [normalize] cannot raise. *)
Lemma wide_double_nonzero (d : float) :
  (abs d <? 0.001) = false -> (d =? 0) = false.
Proof.
  rewrite FloatAxioms.ltb_spec, FloatAxioms.eqb_spec, FloatAxioms.abs_spec.
  destruct (FloatOps.Prim2SF d) as [s|s| |s m e]; simpl; try reflexivity.
  - vm_compute. discriminate.
  - destruct s; reflexivity.
  - destruct s; reflexivity.
Qed.

Lemma mapM_int_Flt (xs : list float) :
  mapM Dbl.int (Dbl.Flt <$> xs) = mapM Dbl.trunc xs.
Proof.
  induction xs as [|x xs IH]; [reflexivity|].
  rewrite fmap_cons. simpl. now rewrite IH.
Qed.

Lemma mapM_int_Int (v : list Z) : mapM Dbl.int (Dbl.Int <$> v) = Some v.
Proof.
  induction v as [|a v IH]; [reflexivity|].
  rewrite fmap_cons. simpl. now rewrite IH.
Qed.

(** The in-place loop is the channel-wise blend of input and state. *)
Lemma smooth_loop_zip (al : float) (angles : list Z) :
  forall pre sm : list Dbl.num,
    (length angles <= length sm)%nat ->
    Dbl.smooth_loop al angles (length pre) (pre ++ sm) =
      xs ← mapM (fun p => Dbl.blend al p.1 p.2) (zip angles sm);
      Some (pre ++ (Dbl.Flt <$> xs) ++ drop (length angles) sm)%list.
Proof.
  induction angles as [|a angles IH]; intros pre sm Hlen.
  - simpl. now rewrite drop_0.
  - destruct sm as [|s sm]; [simpl in Hlen; lia|].
    simpl in Hlen. cbn [Dbl.smooth_loop zip zip_with mapM].
    rewrite list_lookup_middle by reflexivity. cbn [mbind option_bind fst snd].
    destruct (Dbl.blend al a s) as [x|]; cbn [mbind option_bind];
      [|reflexivity].
    rewrite insert_app_r_alt, Nat.sub_diag by lia. cbn [insert list_insert].
    replace (pre ++ Dbl.Flt x :: sm)%list with ((pre ++ [Dbl.Flt x]) ++ sm)%list
      by now rewrite <- app_assoc.
    replace (S (length pre)) with (length (pre ++ [Dbl.Flt x])%list)
      by (rewrite length_app; simpl; lia).
    rewrite IH by lia.
    destruct (mapM _ (zip angles sm)) as [xs|]; cbn; [|reflexivity].
    now rewrite <- app_assoc.
Qed.

End DoubleFacts.

Section DoubleClaims.

Import PrimFloat.
Local Open Scope float_scope.

(** C5.  Over binary64, for a channel of the store whose range passes
    the code's width test ([abs(max - min) < 0.001] is false) and
    every raw value, [normalize] computes [t = (r - min) / (max - min)]
    in double arithmetic, clamps it to [[0, 1]] and returns
    [int(t * 1000)]: [1000] unless [t < 1], else [0] unless [0 < t],
    else the double product [t * 1000] truncated toward zero, not
    rounded to nearest. *)
Theorem normalize_double_truncates (self : Dbl.HandCalibration)
    (name : string) (mn mx r : float) :
  Dbl.finger_ranges self !! name = Some (mn, mx) ->
  (abs (mx - mn) <? 0.001) = false ->
  let t := (r - mn) / (mx - mn) in
  Dbl.normalize self name r =
    (if t <? 1
     then if 0 <? t then Dbl.trunc (t * 1000) else Some 0%Z
     else Some 1000%Z) /\
  Dbl.trunc (t * 1000) = Qtrunc <$> Dbl.exact (t * 1000).
Proof.
  intros Hl Hw t. split; [|apply trunc_exact].
  unfold Dbl.normalize. rewrite Hl, Hw.
  unfold Dbl.div. rewrite (wide_double_nonzero _ Hw).
  cbn [mbind option_bind]. fold t.
  unfold Dbl.max, Dbl.min, Dbl.lt. rewrite of_Z_1.
  destruct (t <? 1).
  - rewrite of_Z_0. destruct (0 <? t); [|reflexivity].
    unfold Dbl.mul. rewrite as_float_1000. reflexivity.
  - reflexivity.
Qed.

Lemma normalize_double_truncates_witness :
  Dbl.normalize (Dbl.mkHandCalibration Dbl.default_ranges) "pinky" 1.5625
    = Some 624%Z.
Proof.
  destruct (normalize_double_truncates
              (Dbl.mkHandCalibration Dbl.default_ranges) "pinky"
              0.5 2.2 1.5625) as [H _]; [reflexivity | reflexivity |].
  rewrite H. vm_compute. reflexivity.
Defined.

(** C2.  Over binary64, a call of [smooth] on an initialised smoother
    replaces the running value of every channel by
    [alpha * input + (1 - alpha) * state], computed in double
    arithmetic and stored as that double, and returns for each channel
    [int] of the new running value: its truncation toward zero, not
    the nearest integer.  The call raises exactly when an operand does
    not convert to a float or a new running value is not finite. *)
Theorem smooth_double_blends_and_truncates (self : Dbl.AngleSmoother)
    (v : list Z) :
  Dbl.initialized self = true ->
  length v = length (Dbl.smoothed self) ->
  Dbl.smooth self v =
    (xs ← mapM (fun p => Dbl.blend (Dbl.alpha self) p.1 p.2)
               (zip v (Dbl.smoothed self));
     out ← mapM Dbl.trunc xs;
     Some (Dbl.mkAngleSmoother (Dbl.alpha self) (Dbl.Flt <$> xs) true, out)) /\
  (forall (a : Z) (s : Dbl.num) (fa fs : float),
     Dbl.as_float (Dbl.Int a) = Some fa -> Dbl.as_float s = Some fs ->
     Dbl.blend (Dbl.alpha self) a s
     = Some (Dbl.alpha self * fa + (1 - Dbl.alpha self) * fs)) /\
  (forall x : float, Dbl.trunc x = Qtrunc <$> Dbl.exact x).
Proof.
  intros Hi Hlen. split; [|split].
  - unfold Dbl.smooth. rewrite Hi. cbn [negb].
    pose proof (smooth_loop_zip (Dbl.alpha self) v [] (Dbl.smoothed self))
      as Hz.
    cbn [length app] in Hz. rewrite Hz by lia.
    destruct (mapM _ (zip v (Dbl.smoothed self))) as [xs|];
      cbn [mbind option_bind]; [|reflexivity].
    rewrite drop_ge by lia. rewrite app_nil_r.
    now rewrite mapM_int_Flt.
  - intros a s fa fs Ha Hs. unfold Dbl.blend. rewrite Ha, Hs. reflexivity.
  - apply trunc_exact.
Qed.

Lemma smooth_double_blends_and_truncates_witness :
  Dbl.smooth (Dbl.mkAngleSmoother 0.35 (replicate 6 (Dbl.Int 4)) true)
             (replicate 6 24%Z)
  ≫= (fun r => Some r.2) = Some (replicate 6 10%Z).
Proof.
  destruct (smooth_double_blends_and_truncates
              (Dbl.mkAngleSmoother 0.35 (replicate 6 (Dbl.Int 4)) true)
              (replicate 6 24%Z)) as [H _]; [reflexivity | reflexivity |].
  rewrite H. vm_compute. reflexivity.
Defined.

(** C6.  Over binary64, [normalize] returns exactly [500] on a channel
    whose range fails the code's width test ([abs(max - min) < 0.001]
    on the double difference), whatever the raw value, and on every
    name that is not a key of the store; [update_min] and [update_max]
    on a name that is not a key return the store unchanged.  When the
    keys of the store are the six channel names these are all the
    names other than the six. *)
Theorem normalize_fallback_non_key (self : Dbl.HandCalibration) :
  (forall (name : string) (mn mx r : float),
     Dbl.finger_ranges self !! name = Some (mn, mx) ->
     (abs (mx - mn) <? 0.001) = true ->
     Dbl.normalize self name r = Some 500%Z) /\
  (forall (name : string) (r : float),
     Dbl.finger_ranges self !! name = None ->
     Dbl.normalize self name r = Some 500%Z) /\
  (forall (name : string) (v : float),
     Dbl.finger_ranges self !! name = None ->
     Dbl.update_min self name v = self /\ Dbl.update_max self name v = self) /\
  ((forall n : string,
      is_Some (Dbl.finger_ranges self !! n) <-> n ∈ finger_names) ->
   forall name : string,
     name ∉ finger_names -> Dbl.finger_ranges self !! name = None).
Proof.
  split; [|split; [|split]].
  - intros name mn mx r Hl Hd. unfold Dbl.normalize. now rewrite Hl, Hd.
  - intros name r Hl. unfold Dbl.normalize. now rewrite Hl.
  - intros name v Hl. unfold Dbl.update_min, Dbl.update_max. now rewrite Hl.
  - intros Hkeys name Hn. apply eq_None_not_Some. intros Hs.
    now apply Hkeys in Hs.
Qed.

Lemma normalize_fallback_non_key_witness :
  Dbl.normalize (Dbl.update_max (Dbl.HandCalibration_init Dbl.NoFile) "ring" 0.5)
                "ring" 1.4 = Some 500%Z /\
  Dbl.normalize (Dbl.HandCalibration_init Dbl.NoFile) "wrist" 0.25
    = Some 500%Z.
Proof.
  split.
  - apply (proj1 (normalize_fallback_non_key
                    (Dbl.update_max (Dbl.HandCalibration_init Dbl.NoFile)
                                    "ring" 0.5))
                 "ring" 0.5 0.5 1.4); reflexivity.
  - apply (proj1 (proj2 (normalize_fallback_non_key
                           (Dbl.HandCalibration_init Dbl.NoFile)))
                 "wrist" 0.25). reflexivity.
Defined.

(** A calibration file [{"wrist": [0.0, 1.0]}] adds the key [wrist] to
    the store: [wrist] is not one of the six channel names, yet
    [normalize] returns [250] for it at [0.25]. *)
Lemma normalize_unknown_name_counterexample :
  ~ (forall (self : Dbl.HandCalibration) (name : string) (r v : float),
       name ∉ finger_names ->
       Dbl.normalize self name r = Some 500%Z /\
       Dbl.update_min self name v = self /\
       Dbl.update_max self name v = self).
Proof.
  intros H.
  destruct (H (Dbl.HandCalibration_init
                 (Dbl.JsonObject (<["wrist" := (0, 1)]> ∅)))
              "wrist" 0.25 0.5) as [Hn _].
  - unfold finger_names. rewrite !elem_of_cons, elem_of_nil.
    intros [?|[?|[?|[?|[?|[?|[]]]]]]]; discriminate.
  - vm_compute in Hn. discriminate Hn.
Qed.


End DoubleClaims.

Lemma pairs_keep_other (items : list (string * (PrimFloat.float * PrimFloat.float)))
    (name : string) :
  name ∉ items.*1 ->
  forall r : gmap string (PrimFloat.float * PrimFloat.float),
    foldl (fun r item => <[item.1 := item.2]> r) r items !! name = r !! name.
Proof.
  induction items as [|[n x] items IH]; intros Hn r; [reflexivity|].
  rewrite fmap_cons in Hn. apply not_elem_of_cons in Hn as [Hne Hn].
  simpl. rewrite IH by exact Hn. apply lookup_insert_ne. simpl in Hne. congruence.
Qed.

(** X6.  What construction does with the calibration file.  Without a
    readable file the store is the defaults and [load_calibration]
    returns [False].  A JSON object overrides the channels it names,
    keeps the defaults of the others and returns [True].  A JSON array
    of [[name, range]] items is written item by item, the last item of
    a name winning, and the items written stay even when a later item
    is rejected and the call returns [False]. *)
Theorem load_calibration_outcomes (self : Dbl.HandCalibration) :
  Dbl.load_calibration self Dbl.NoFile = (self, false) /\
  (forall (m : gmap string (PrimFloat.float * PrimFloat.float)) (name : string),
     (Dbl.load_calibration self (Dbl.JsonObject m)).2 = true /\
     Dbl.finger_ranges (Dbl.load_calibration self (Dbl.JsonObject m)).1 !! name
     = match m !! name with
       | Some r => Some r
       | None => Dbl.finger_ranges self !! name
       end) /\
  (forall (items : list (string * (PrimFloat.float * PrimFloat.float)))
          (complete : bool),
     (Dbl.load_calibration self (Dbl.JsonPairs items complete)).2 = complete /\
     (forall name : string, name ∉ items.*1 ->
        Dbl.finger_ranges
          (Dbl.load_calibration self (Dbl.JsonPairs items complete)).1 !! name
        = Dbl.finger_ranges self !! name) /\
     (forall (before later : list (string * (PrimFloat.float * PrimFloat.float)))
             (name : string) (r : PrimFloat.float * PrimFloat.float),
        items = (before ++ (name, r) :: later)%list -> name ∉ later.*1 ->
        Dbl.finger_ranges
          (Dbl.load_calibration self (Dbl.JsonPairs items complete)).1 !! name
        = Some r)).
Proof.
  split; [reflexivity|]. split.
  - intros m name. split; [reflexivity|]. simpl.
    destruct (m !! name) as [r|] eqn:E.
    + now apply lookup_union_Some_l.
    + now rewrite lookup_union_r.
  - intros items complete. split; [reflexivity|]. split.
    + intros name Hn. simpl. now apply pairs_keep_other.
    + intros before later name r -> Hn. simpl.
      rewrite foldl_app. simpl. rewrite pairs_keep_other by exact Hn.
      apply lookup_insert_eq.
Qed.

(** ** Scenarios *)

(** Raw readings at the default maxima normalise to 1000 on every
    channel, and the first [smooth] returns them as they are. *)
Example default_max_cold_start :
  let cal := HandCalibration_init None in
  normalize cal "pinky" (11 # 5) = Some 1000%Z /\
  normalize cal "ring" (11 # 5) = Some 1000%Z /\
  normalize cal "middle" (11 # 5) = Some 1000%Z /\
  normalize cal "index" (11 # 5) = Some 1000%Z /\
  normalize cal "thumb_bend" (3 # 2) = Some 1000%Z /\
  normalize cal "thumb_rotation" (17 # 20) = Some 1000%Z /\
  snd <$> smooth (AngleSmoother_init (7 # 20)) (replicate 6 1000%Z)
    = Some (replicate 6 1000%Z).
Proof. vm_compute. repeat split. Qed.

(** The middle of the default pinky range. *)
Example normalize_pinky_middle :
  normalize (HandCalibration_init None) "pinky" (27 # 20) = Some 500%Z.
Proof. vm_compute. reflexivity. Qed.

(** An inverted range still gives a value in range: the raw value is
    below both bounds and clamps to the top. *)
Example normalize_inverted_range :
  normalize (update_max (HandCalibration_init None) "thumb_bend" (1 # 10))
            "thumb_bend" (1 # 20) = Some 1000%Z.
Proof. vm_compute. reflexivity. Qed.

(** All keypoints in one place: each extraction function falls back. *)
Example collapsed_skeleton :
  let lms := replicate 21 (mkLandmark (1 # 2) (1 # 2) 0) in
  calculate_finger_raw_value sqrt_micro lms 5 6 7 8 0 = Some 1%Q /\
  calculate_thumb_bend_raw sqrt_micro lms = Some 1%Q /\
  calculate_thumb_rotation_raw sqrt_micro lms = Some (1 # 2)%Q.
Proof. vm_compute. repeat split. Qed.

(** A skeleton with a keypoint missing is an [IndexError]. *)
Example short_skeleton :
  calculate_finger_raw_value sqrt_micro
    (replicate 20 (mkLandmark (1 # 2) (1 # 2) 0)) 17 18 19 20 0 = None.
Proof. vm_compute. reflexivity. Qed.

(** A click on "Calibrate OPEN" after a hand was seen moves the upper
    bounds and clears the smoother's flag; the running values stay. *)
Example capture_open_resets :
  match run_loop sqrt_micro (main_init None)
          [hand_frame open_hand; click_open_frame open_hand] with
  | Some (st, pkts) =>
      initialized (smoother st) = false /\
      length pkts = 2%nat /\
      (snd <$> finger_ranges (calibration st) !! "pinky")
        = calculate_finger_raw_value sqrt_micro open_hand 17 18 19 20 0
  | None => False
  end.
Proof. vm_compute. repeat split. Qed.

Section DoubleScenarios.

Import PrimFloat.
Local Open Scope float_scope.

(** The pinky item is written before the bad item stops the update. *)
Example load_stops_midway :
  let r := Dbl.load_calibration (Dbl.mkHandCalibration Dbl.default_ranges)
             (Dbl.JsonPairs [("pinky", (0, 1))] false) in
  r.2 = false /\
  Dbl.normalize r.1 "pinky" 0.25 = Some 250%Z /\
  Dbl.normalize (Dbl.mkHandCalibration Dbl.default_ranges) "pinky" 0.25
    = Some 0%Z.
Proof. vm_compute. repeat split. Qed.

(** Values where rounding decides the integer returned. *)
Example double_normalize_below_625 :
  Dbl.normalize (Dbl.HandCalibration_init Dbl.NoFile) "pinky" 1.5625
    = Some 624%Z.
Proof. vm_compute. reflexivity. Qed.

Example double_normalize_0_009 :
  Dbl.normalize
    (Dbl.HandCalibration_init (Dbl.JsonObject (<["pinky" := (0, 1)]> ∅)))
    "pinky" 0.009 = Some 9%Z.
Proof. vm_compute. reflexivity. Qed.

Example double_smooth_4_24 :
  snd <$> Dbl.smooth (Dbl.mkAngleSmoother 0.35 (replicate 6 (Dbl.Int 4)) true)
                     (replicate 6 24%Z)
  = Some (replicate 6 10%Z).
Proof. vm_compute. reflexivity. Qed.

Example double_smooth_0_20 :
  snd <$> Dbl.smooth (Dbl.mkAngleSmoother 0.35 (replicate 6 (Dbl.Int 0)) true)
                     (replicate 6 20%Z)
  = Some (replicate 6 7%Z).
Proof. vm_compute. reflexivity. Qed.

End DoubleScenarios.
